(** * MedCalcEHR: the FHIR bundle re-keying transform (src/transform_fhir.py)

    A shallow embedding of [transform_fhir.py]: the JSON document the script
    loads, the Python string primitives it calls, the identifier augmentor,
    the two-pass identity assignment and the recursive reference rewriter,
    followed by the properties stated for them.

    Conventions of the embedding.
    - A Python [str] is a list of Unicode code points ([list N]); the
      whitespace class is the one CPython uses both for [str.strip()] and
      for [\s] in a [str] pattern.
    - A Python [dict] loaded from JSON is an association list in insertion
      order; a real dict never holds a key twice, so the operations below
      are those of Python on every list without repeated keys.
    - Mutation in place becomes explicit value passing.  A document loaded
      by [json.load] is a tree (no two fields share an object), and the
      script creates no sharing that outlives an entry's processing.
    - A raised exception is [None]; the run then produces no output.
    - [uuid.uuid4()] draws 128 random bits: the draws are a function
      [entropy] from the number of earlier calls, threaded as a counter.
    - [str()] of a value that is not a string (used only by the two
      f-strings) is the parameter [py_str].
    - Interpreter resource limits (recursion depth, memory) are not
      modelled. *)

From Stdlib Require Import ZArith NArith List Ascii String.
From Stdlib Require Import Floats.SpecFloat.
From stdpp Require Import gmap list fin_maps.

Local Open Scope N_scope.

(** ** Python strings *)

Abbreviation str := (list N).

Definition lit (s : string) : str :=
  (fun a => N_of_ascii a) <$> list_ascii_of_string s.

(** [Py_UNICODE_ISSPACE]: the characters [str.strip()] removes and [\s]
    matches in a [str] pattern. *)
Definition is_space (c : N) : bool :=
  ((9 <=? c) && (c <=? 13)) || ((28 <=? c) && (c <=? 32))
  || (c =? 133) || (c =? 160) || (c =? 5760)
  || ((8192 <=? c) && (c <=? 8202))
  || (c =? 8232) || (c =? 8233) || (c =? 8239) || (c =? 8287)
  || (c =? 12288).

(** The characters of the argument of the second [strip]: the double and
    the single quote. *)
Definition is_quote (c : N) : bool := (c =? 34) || (c =? 39).

Fixpoint lstrip (p : N -> bool) (s : str) : str :=
  match s with
  | c :: r => if p c then lstrip p r else s
  | [] => []
  end.

Definition rstrip (p : N -> bool) (s : str) : str := rev (lstrip p (rev s)).

(** [s.strip()] is [strip is_space s]; [s.strip(chars)] is [strip] with
    membership in [chars]. *)
Definition strip (p : N -> bool) (s : str) : str := rstrip p (lstrip p s).

Fixpoint startswith (s pre : str) {struct pre} : bool :=
  match pre, s with
  | [], _ => true
  | a :: pre', b :: s' => (a =? b) && startswith s' pre'
  | _ :: _, [] => false
  end.

(** [span p s]: the longest prefix of [s] whose characters satisfy [p], and
    the rest; what a greedy [[class]*] consumes. *)
Fixpoint span (p : N -> bool) (s : str) : str * str :=
  match s with
  | c :: r => if p c then let '(a, b) := span p r in (c :: a, b) else ([], s)
  | [] => ([], [])
  end.

(** [re.sub(r"\s+", "-", s)]: scanning from the left, a whitespace character
    starts a match, which greedily takes the whole run and is replaced by
    one hyphen; any other character is copied. *)
Fixpoint re_sub_ws (s : str) : str :=
  match s with
  | [] => []
  | c :: r =>
      if is_space c then
        45 :: (fix skip (t : str) : str :=
                 match t with
                 | [] => []
                 | d :: t' => if is_space d then skip t' else d :: re_sub_ws t'
                 end) r
      else c :: re_sub_ws r
  end.

Definition URN_SYSTEM : str := Eval cbv in lit "urn:ietf:rfc:3986".
Definition URN_PREFIX : str := Eval cbv in lit "urn:uuid:".
Definition HASH : str := Eval cbv in lit "#".

(** ** The regular expression [REF_RE]

    [^(?:https?://[^/]+/[^/]+/)?([A-Za-z][A-Za-z0-9]+)/([A-Za-z0-9\-\.]{1,64})$]
    matched with [REF_RE.match]. *)

Definition is_alpha (c : N) : bool :=
  ((65 <=? c) && (c <=? 90)) || ((97 <=? c) && (c <=? 122)).
Definition is_alnum (c : N) : bool :=
  is_alpha c || ((48 <=? c) && (c <=? 57)).
Definition is_id_char (c : N) : bool :=
  is_alnum c || (c =? 45) || (c =? 46).
Definition not_slash (c : N) : bool := negb (c =? 47).

Definition strip_prefix (pre s : str) : option str :=
  if startswith s pre then Some (drop (length pre) s) else None.

(** [[^/]+/]: the class cannot match the slash that has to follow, so only
    the longest run can lead to a match. *)
Definition segment_slash (s : str) : option str :=
  match span not_slash s with
  | (_ :: _, 47 :: rest) => Some rest
  | _ => None
  end.

(** [https?://[^/]+/[^/]+/]: returns what follows the base.  The optional
    [s] is taken when present; without it [://] would have to start at that
    [s], so the other choice never matches. *)
Definition HTTP : str := Eval cbv in lit "http".
Definition COLON_SLASHES : str := Eval cbv in lit "://".

Definition match_base (s : str) : option str :=
  match strip_prefix HTTP s with
  | Some r0 =>
      let r1 := match r0 with 115 :: r => r | _ => r0 end in
      match strip_prefix COLON_SLASHES r1 with
      | Some r2 =>
          match segment_slash r2 with
          | Some r3 => segment_slash r3
          | None => None
          end
      | None => None
      end
  | None => None
  end.

(** [$] without [re.MULTILINE]: at the end of the string, or just before a
    newline that ends it. *)
Definition at_dollar (s : str) : bool :=
  match s with
  | [] => true
  | [10] => true
  | _ => false
  end.

(** [([A-Za-z][A-Za-z0-9]+)/([A-Za-z0-9\-\.]{1,64})$]: both classes exclude
    the character that has to follow them (a slash, the end or a newline),
    so each group is the whole run, and the second run has 1 to 64
    characters. *)
Definition match_kind_id (s : str) : option (str * str) :=
  match s with
  | c :: r =>
      if is_alpha c then
        match span is_alnum r with
        | (k :: ks, 47 :: r2) =>
            let '(i, r3) := span is_id_char r2 in
            if (1 <=? length i)%nat && (length i <=? 64)%nat && at_dollar r3
            then Some (c :: k :: ks, i)
            else None
        | _ => None
        end
      else None
  | [] => None
  end.

(** [REF_RE.match(s)]: the groups 1 and 2 of a match.  The optional base is
    tried first and given up when the rest does not match after it. *)
Definition REF_RE (s : str) : option (str * str) :=
  match match_base s with
  | Some rest =>
      match match_kind_id rest with
      | Some g => Some g
      | None => match_kind_id s
      end
  | None => match_kind_id s
  end.

(** ** JSON values *)

Unset Elimination Schemes.
(** What [json.load] returns: [None], [bool], [int], [float], [str], [list]
    and [dict]. *)
Inductive json : Type :=
| JNull
| JBool (b : bool)
| JInt (z : Z)
| JFloat (f : spec_float)
| JStr (s : str)
| JArr (l : list json)
| JObj (d : list (str * json)).
Set Elimination Schemes.

Abbreviation dict := (list (str * json)).

Section json_induction.
Variable P : json -> Prop.
Hypothesis HNull : P JNull.
Hypothesis HBool : forall b, P (JBool b).
Hypothesis HInt : forall z, P (JInt z).
Hypothesis HFloat : forall f, P (JFloat f).
Hypothesis HStr : forall s, P (JStr s).
Hypothesis HArr : forall l, Forall P l -> P (JArr l).
Hypothesis HObj : forall d, Forall (fun kv => P (snd kv)) d -> P (JObj d).

Fixpoint json_ind (j : json) : P j :=
  match j with
  | JNull => HNull
  | JBool b => HBool b
  | JInt z => HInt z
  | JFloat f => HFloat f
  | JStr s => HStr s
  | JArr l =>
      HArr l ((fix go (l : list json) : Forall P l :=
                 match l with
                 | [] => List.Forall_nil P
                 | x :: r => List.Forall_cons P x r (json_ind x) (go r)
                 end) l)
  | JObj d =>
      HObj d ((fix go (d : list (str * json)) : Forall (fun kv => P (snd kv)) d :=
                 match d with
                 | [] => List.Forall_nil _
                 | kv :: r => List.Forall_cons _ kv r (json_ind (snd kv)) (go r)
                 end) d)
  end.
End json_induction.

(** Truth value of a JSON value in a Python condition. *)
Definition truthy (v : json) : bool :=
  match v with
  | JNull => false
  | JBool b => b
  | JInt z => negb (z =? 0)%Z
  | JFloat (S754_zero _) => false
  | JFloat _ => true
  | JStr s => match s with [] => false | _ => true end
  | JArr l => match l with [] => false | _ => true end
  | JObj d => match d with [] => false | _ => true end
  end.

(** Lists and dicts cannot be hashed, so cannot be (part of) a dict key. *)
Definition hashable (v : json) : bool :=
  match v with
  | JArr _ | JObj _ => false
  | _ => true
  end.

(** [v == s] for a string [s], where [v] is the result of a [dict.get]. *)
Definition eq_str (v : option json) (s : str) : bool :=
  match v with
  | Some (JStr t) => bool_decide (t = s)
  | _ => false
  end.

(** ** Python dicts in insertion order *)

Fixpoint dict_get (k : str) (d : dict) : option json :=
  match d with
  | [] => None
  | (k', v) :: r => if decide (k' = k) then Some v else dict_get k r
  end.

(** [d[k] = v]: an existing key keeps its place, a new one goes last. *)
Fixpoint dict_set (k : str) (v : json) (d : dict) : dict :=
  match d with
  | [] => [(k, v)]
  | (k', v') :: r =>
      if decide (k' = k) then (k, v) :: r else (k', v') :: dict_set k v r
  end.

(** [del d[k]] (for a key that is present). *)
Definition dict_del (k : str) (d : dict) : dict :=
  filter (fun kv => kv.1 <> k) d.

(** [d.setdefault(k, v)], as a statement. *)
Definition dict_setdefault (k : str) (v : json) (d : dict) : dict :=
  match dict_get k d with
  | Some _ => d
  | None => dict_set k v d
  end.

(** [d.get(k)]: Python's [None] and JSON's [null] are the same value. *)
Definition dict_get_or_null (k : str) (d : dict) : json :=
  match dict_get k d with
  | Some v => v
  | None => JNull
  end.

Definition K_id : str := Eval cbv in lit "id".
Definition K_identifier : str := Eval cbv in lit "identifier".
Definition K_system : str := Eval cbv in lit "system".
Definition K_value : str := Eval cbv in lit "value".
Definition K_entry : str := Eval cbv in lit "entry".
Definition K_resource : str := Eval cbv in lit "resource".
Definition K_resourceType : str := Eval cbv in lit "resourceType".
Definition K_fullUrl : str := Eval cbv in lit "fullUrl".
Definition K_reference : str := Eval cbv in lit "reference".
Definition K_generated_uuid : str := Eval cbv in lit "_generated_uuid".

(** ** The script *)

(** The integer of [uuid.UUID(bytes=os.urandom(16), version=4)] for the
    random integer [r]: variant bits 10, version 4. *)
Definition uuid4_int (r : N) : N :=
  let i0 := r mod 2 ^ 128 in
  let i1 := N.lor (N.ldiff i0 (N.shiftl 49152 48)) (N.shiftl 32768 48) in
  N.lor (N.ldiff i1 (N.shiftl 61440 64)) (N.shiftl 4 76).

Definition hex_digit (d : N) : N := if d <? 10 then 48 + d else 87 + d.

(** The last [k] hexadecimal digits of [n], most significant first. *)
Fixpoint hex_digits (k : nat) (n : N) : str :=
  match k with
  | O => []
  | S k' => hex_digits k' (n / 16) ++ [hex_digit (n mod 16)]
  end.

(** [str(UUID)]: 32 hexadecimal digits in groups of 8, 4, 4, 4 and 12. *)
Definition uuid_str (n : N) : str :=
  let h := hex_digits 32 n in
  take 8 h ++ 45 :: take 4 (drop 8 h) ++ 45 :: take 4 (drop 12 h)
    ++ 45 :: take 4 (drop 16 h) ++ 45 :: drop 20 h.

(** Insertion of [x] into a list sorted by code points, and [sorted]. *)
Fixpoint str_leb (a b : str) : bool :=
  match a, b with
  | [], _ => true
  | _ :: _, [] => false
  | x :: a', y :: b' =>
      if x <? y then true else if y <? x then false else str_leb a' b'
  end.

Fixpoint insert_sorted (x : str) (l : list str) : list str :=
  match l with
  | [] => [x]
  | y :: r => if str_leb x y then x :: l else y :: insert_sorted x r
  end.

Definition sorted (l : list str) : list str := foldr insert_sorted [] l.

(** [sep.join(l)]. *)
Fixpoint join (sep : str) (l : list str) : str :=
  match l with
  | [] => []
  | [x] => x
  | x :: r => x ++ sep ++ join sep r
  end.

(** The three indices of [collect_uuid_map].  [by_type_id] is keyed by
    pairs and never read by the script: it is kept as the list of its
    assignments, latest first. *)
Record lookups : Type := Lookups {
  by_fullurl : gmap str str;
  by_type_id : list ((json * str) * str);
  by_typeid_str : gmap str str
}.

Section script.

(** The [n]-th draw of [os.urandom(16)], as an integer. *)
Variable entropy : nat -> N.

(** [str(v)] for a JSON value [v] that is not a string. *)
Variable py_str : json -> str.

(** [gen_uuid()], with the number of earlier calls as state. *)
Definition gen_uuid (st : nat) : str * nat :=
  (uuid_str (uuid4_int (entropy st)), S st).

(** [f"{v}"]. *)
Definition format_value (v : json) : str :=
  match v with
  | JStr s => s
  | _ => py_str v
  end.

Definition to_urn (u : json) : str := URN_PREFIX ++ format_value u.

Definition urn_ident (urn_value : str) : json :=
  JObj [(K_system, JStr URN_SYSTEM); (K_value, JStr urn_value)].

(** The test of the generator expression in [add_identifier]. *)
Definition same_ident (urn_value : str) (x : json) : bool :=
  match x with
  | JObj xd =>
      eq_str (dict_get K_system xd) URN_SYSTEM
      && eq_str (dict_get K_value xd) urn_value
  | _ => false
  end.

Definition add_identifier (resource : dict) (urn_value : str) : dict :=
  let ident := urn_ident urn_value in
  match dict_get K_identifier resource with
  | Some (JArr l) =>
      if existsb (same_ident urn_value) l then resource
      else dict_set K_identifier (JArr (l ++ [ident])) resource
  | Some (JObj o) => dict_set K_identifier (JArr [JObj o; ident]) resource
  | Some _ => dict_set K_identifier (JArr [ident]) resource
  | None => dict_set K_identifier (JArr [ident]) resource
  end.

Definition sanitize_ref_string (s : str) : str :=
  let s2 := strip is_quote (strip is_space s) in
  if startswith s2 URN_PREFIX || startswith s2 HASH then s2
  else re_sub_ws s2.

Definition map_reference (ref : str) (bf bt : gmap str str) : option str :=
  let candidate := sanitize_ref_string ref in
  if startswith candidate URN_PREFIX || startswith candidate HASH
  then Some candidate
  else
    match bf !! candidate with
    | Some u => Some u
    | None =>
        match REF_RE candidate with
        | Some (g1, g2) => bt !! (g1 ++ 47 :: g2)
        | None => None
        end
    end.

(** One [k, v] pair of the loop over [obj.items()], given the recursive
    call; returns the value left under [k] and the set. *)
Definition rewrite_item (rec : json -> gset str -> json * gset str)
    (bf bt : gmap str str) (k : str) (v : json) (unknown : gset str)
    : json * gset str :=
  match v with
  | JStr s =>
      if decide (k = K_reference) then
        match map_reference s bf bt with
        | Some mapped => (JStr mapped, unknown)
        | None =>
            if negb (startswith s URN_PREFIX) && negb (startswith s HASH)
            then (v, {[ s ]} ∪ unknown)
            else (v, unknown)
        end
      else rec v unknown
  | _ => rec v unknown
  end.

Fixpoint rewrite_references (obj : json) (bf bt : gmap str str)
    (unknown : gset str) {struct obj} : json * gset str :=
  match obj with
  | JObj d =>
      let '(d', u') :=
        (fix items (l : list (str * json)) (u : gset str)
           : list (str * json) * gset str :=
           match l with
           | [] => ([], u)
           | (k, v) :: r =>
               let '(v', u1) :=
                 rewrite_item (fun x w => rewrite_references x bf bt w)
                   bf bt k v u in
               let '(r', u2) := items r u1 in
               ((k, v') :: r', u2)
           end) d unknown in
      (JObj d', u')
  | JArr l =>
      let '(l', u') :=
        (fix elems (l : list json) (u : gset str) : list json * gset str :=
           match l with
           | [] => ([], u)
           | x :: r =>
               let '(x', u1) := rewrite_references x bf bt u in
               let '(r', u2) := elems r u1 in
               (x' :: r', u2)
           end) l unknown in
      (JArr l', u')
  | _ => (obj, unknown)
  end.

(** What [for e in bundle.get("entry", [])] iterates over: the elements of a
    list, the keys of a dict, the characters of a string; nothing when the
    key is absent; any other value is not iterable. *)
Definition entries_of (bundle : dict) : option (list json) :=
  match dict_get K_entry bundle with
  | None => Some []
  | Some (JArr l) => Some l
  | Some (JObj d) => Some ((fun kv => JStr kv.1) <$> d)
  | Some (JStr s) => Some ((fun c => JStr [c]) <$> s)
  | Some _ => None
  end.

(** The entries are changed in place: the bundle then holds the changed
    entries where it held a list (the only case with a dict to change). *)
Definition set_entries (bundle : dict) (es : list json) : dict :=
  match dict_get K_entry bundle with
  | Some (JArr _) => dict_set K_entry (JArr es) bundle
  | _ => bundle
  end.

(** [res = e.get("resource", {})] followed by [res.get(...)]: a missing key
    gives a fresh empty dict, a value that is not a dict has no [get]. *)
Definition resource_of (ed : dict) : option dict :=
  match dict_get K_resource ed with
  | None => Some []
  | Some (JObj rd) => Some rd
  | Some _ => None
  end.

(** The body of the loop of [collect_uuid_map]. *)
Definition collect_entry (e : json) (m : lookups) (st : nat)
    : option (json * lookups * nat) :=
  match e with
  | JObj ed =>
      rd ← resource_of ed;
      let rtype := dict_get_or_null K_resourceType rd in
      let old_id := dict_get_or_null K_id rd in
      let '(new_uuid, st') := gen_uuid st in
      let urn := to_urn (JStr new_uuid) in
      let bf :=
        match dict_get K_fullUrl ed with
        | Some (JStr f) => <[strip is_space f := urn]> (by_fullurl m)
        | _ => by_fullurl m
        end in
      m' ← (if truthy rtype then
              match old_id with
              | JStr i =>
                  if hashable rtype then
                    Some (Lookups bf (((rtype, i), urn) :: by_type_id m)
                            (<[format_value rtype ++ 47 :: i := urn]>
                               (by_typeid_str m)))
                  else None
              | _ => Some (Lookups bf (by_type_id m) (by_typeid_str m))
              end
            else Some (Lookups bf (by_type_id m) (by_typeid_str m)));
      Some (JObj (dict_setdefault K_generated_uuid (JStr new_uuid) ed), m', st')
  | _ => None
  end.

Fixpoint collect_entries (es : list json) (m : lookups) (st : nat)
    : option (list json * lookups * nat) :=
  match es with
  | [] => Some ([], m, st)
  | e :: r =>
      '(e', m1, st1) ← collect_entry e m st;
      '(r', m2, st2) ← collect_entries r m1 st1;
      Some (e' :: r', m2, st2)
  end.

Definition collect_uuid_map (bundle : dict) (st : nat)
    : option (lookups * dict * nat) :=
  es ← entries_of bundle;
  '(es', m, st') ← collect_entries es (Lookups ∅ [] ∅) st;
  Some (m, set_entries bundle es', st').

(** [e.get("_generated_uuid") or gen_uuid()]. *)
Definition entry_uuid (ed : dict) (st : nat) : json * nat :=
  match dict_get K_generated_uuid ed with
  | Some v =>
      if truthy v then (v, st)
      else let '(u, st') := gen_uuid st in (JStr u, st')
  | None => let '(u, st') := gen_uuid st in (JStr u, st')
  end.

(** The body of the second loop of [transform_bundle]. *)
Definition process_entry (e : json) (bf bt : gmap str str)
    (unknown : gset str) (st : nat) : option (json * gset str * nat) :=
  match e with
  | JObj ed =>
      rd ← resource_of ed;
      let '(new_uuid, st') := entry_uuid ed st in
      let urn := to_urn new_uuid in
      let ed1 := dict_set K_fullUrl (JStr urn) ed in
      let rd1 := dict_set K_id new_uuid rd in
      let rd2 := add_identifier rd1 urn in
      let '(res', unknown') := rewrite_references (JObj rd2) bf bt unknown in
      let ed2 :=
        match dict_get K_resource ed with
        | Some _ => dict_set K_resource res' ed1
        | None => ed1
        end in
      let ed3 :=
        match dict_get K_generated_uuid ed2 with
        | Some _ => dict_del K_generated_uuid ed2
        | None => ed2
        end in
      Some (JObj ed3, unknown', st')
  | _ => None
  end.

Fixpoint process_entries (es : list json) (bf bt : gmap str str)
    (unknown : gset str) (st : nat) : option (list json * gset str * nat) :=
  match es with
  | [] => Some ([], unknown, st)
  | e :: r =>
      '(e', u1, st1) ← process_entry e bf bt unknown st;
      '(r', u2, st2) ← process_entries r bf bt u1 st1;
      Some (e' :: r', u2, st2)
  end.

(** Step 0 of [transform_bundle]: the bundle's own id and identifier. *)
Definition rekey_bundle (bundle : dict) (bundle_uuid : str) : dict :=
  let b1 := dict_set K_id (JStr bundle_uuid) bundle in
  let bund_ident := urn_ident (to_urn (JStr bundle_uuid)) in
  match dict_get K_identifier b1 with
  | Some (JObj o) => dict_set K_identifier (JArr [JObj o; bund_ident]) b1
  | Some (JArr l) => dict_set K_identifier (JArr (l ++ [bund_ident])) b1
  | Some _ => dict_set K_identifier (JArr [bund_ident]) b1
  | None => dict_set K_identifier bund_ident b1
  end.

(** [transform_bundle] up to the warning: the bundle, the set
    [unknown_refs] and the number of identifiers drawn. *)
Definition transform_state (bundle : dict) (st : nat)
    : option (json * gset str * nat) :=
  let '(bundle_uuid, st0) := gen_uuid st in
  let b0 := rekey_bundle bundle bundle_uuid in
  '(m, b1, st1) ← collect_uuid_map b0 st0;
  es ← entries_of b1;
  '(es', u2, st2) ← process_entries es (by_fullurl m) (by_typeid_str m) ∅ st1;
  let b2 := set_entries b1 es' in
  let '(b3, u3) :=
    rewrite_references (JObj b2) (by_fullurl m) (by_typeid_str m) u2 in
  Some (b3, u3, st2).

Definition WARN_HEAD : str :=
  Eval cbv in
    lit "[WARN] The following references could not be resolved to entries in the bundle and were left as-is:"
    ++ 10 :: lit "  - ".
Definition WARN_SEP : str := Eval cbv in 10 :: lit "  - ".

(** The warning printed to [sys.stderr], if any. *)
Definition warn (unknown : gset str) : option str :=
  match elements unknown with
  | [] => None
  | l => Some (WARN_HEAD ++ join WARN_SEP (sorted l) ++ [10])
  end.

(** [transform_bundle]: the returned bundle and what went to [stderr]. *)
Definition transform_bundle (bundle : dict) (st : nat)
    : option (json * option str * nat) :=
  '(b, unknown, st') ← transform_state bundle st;
  Some (b, warn unknown, st').

(** The two loops of [rewrite_references], by themselves. *)
Definition rewrite_items (bf bt : gmap str str)
    : list (str * json) -> gset str -> list (str * json) * gset str :=
  fix items (l : list (str * json)) (u : gset str) :=
    match l with
    | [] => ([], u)
    | (k, v) :: r =>
        let '(v', u1) :=
          rewrite_item (fun x w => rewrite_references x bf bt w) bf bt k v u in
        let '(r', u2) := items r u1 in
        ((k, v') :: r', u2)
    end.

Definition rewrite_elems (bf bt : gmap str str)
    : list json -> gset str -> list json * gset str :=
  fix elems (l : list json) (u : gset str) :=
    match l with
    | [] => ([], u)
    | x :: r =>
        let '(x', u1) := rewrite_references x bf bt u in
        let '(r', u2) := elems r u1 in
        (x' :: r', u2)
    end.

(** ** Vocabulary of the properties *)

(** The value a reference-tagged string is left with by one pass. *)
Definition resolve (bf bt : gmap str str) (v : str) : str :=
  match map_reference v bf bt with
  | Some mapped => mapped
  | None => v
  end.

(** The object [rewrite_references] returns. *)
Definition rewrite_json (bf bt : gmap str str) (obj : json) : json :=
  (rewrite_references obj bf bt ∅).1.

(** The value one pass leaves under the key [k] that held [v]. *)
Definition item_value (bf bt : gmap str str) (k : str) (v : json) : json :=
  match v with
  | JStr s => if decide (k = K_reference) then JStr (resolve bf bt s) else v
  | _ => rewrite_json bf bt v
  end.

(** A position in a document: keys of mappings and indices of sequences
    from the root. *)
Inductive step : Type :=
| Key (k : str)
| Idx (i : nat).

Fixpoint get_path (j : json) (p : list step) : option json :=
  match p with
  | [] => Some j
  | Key k :: r =>
      match j with
      | JObj d =>
          match dict_get k d with
          | Some v => get_path v r
          | None => None
          end
      | _ => None
      end
  | Idx i :: r =>
      match j with
      | JArr l =>
          match l !! i with
          | Some v => get_path v r
          | None => None
          end
      | _ => None
      end
  end.

(** A position is reference-tagged when its last step is the key
    [reference]. *)
Definition tagged (p : list step) : bool :=
  match last p with
  | Some (Key k) => bool_decide (k = K_reference)
  | _ => false
  end.

(** What one pass leaves at position [p] where [x] was. *)
Definition rewrite_at (bf bt : gmap str str) (p : list step) (x : json) : json :=
  match x with
  | JStr s => if tagged p then JStr (resolve bf bt s) else x
  | _ => rewrite_json bf bt x
  end.

(** [ref_at j p v]: the mapping at position [p] of [j] holds the string [v]
    under the key [reference]. *)
Definition ref_at (j : json) (p : list step) (v : str) : Prop :=
  get_path j (p ++ [Key K_reference]) = Some (JStr v).

(** The document with the content of every string stored under the key
    [reference] blanked: what is left is everything else, the keys and their
    order, and the length and order of every sequence. *)
Fixpoint mask_refs (j : json) : json :=
  match j with
  | JObj d =>
      JObj ((fix items (l : list (str * json)) : list (str * json) :=
               match l with
               | [] => []
               | (k, v) :: r =>
                   (k, match v with
                       | JStr _ => if decide (k = K_reference) then JStr [] else v
                       | _ => mask_refs v
                       end) :: items r
               end) d)
  | JArr l => JArr (List.map mask_refs l)
  | _ => j
  end.

(** The key an entry registers in [by_typeid_str], if any: its record has a
    truthy [resourceType] and a string [id]. *)
Definition entry_key (e : json) : option str :=
  match e with
  | JObj ed =>
      match dict_get K_resource ed with
      | Some (JObj rd) =>
          let rtype := dict_get_or_null K_resourceType rd in
          if truthy rtype then
            match dict_get_or_null K_id rd with
            | JStr i => Some (format_value rtype ++ 47 :: i)
            | _ => None
            end
          else None
      | _ => None
      end
  | _ => None
  end.

(** The key an entry registers in [by_fullurl], if any. *)
Definition entry_locator (e : json) : option str :=
  match e with
  | JObj ed =>
      match dict_get K_fullUrl ed with
      | Some (JStr f) => Some (strip is_space f)
      | _ => None
      end
  | _ => None
  end.

(** The canonical encoding of the identifier drawn as the [n]-th one. *)
Definition urn_of_draw (n : nat) : str := to_urn (JStr (gen_uuid n).1).

(** The fields of a record (or of the bundle) that survive its re-keying at
    their position: all but [id], and [identifier] unless it is a sequence
    (whose elements keep their indices). *)
Definition kept_in_record (p : list step) : bool :=
  match p with
  | Key k :: r =>
      if decide (k = K_id) then false
      else if decide (k = K_identifier) then
        match r with Idx _ :: _ => true | _ => false end
      else true
  | _ => false
  end.

(** The positions of the bundle the transform does not replace, move or
    delete before it rewrites references. *)
Definition kept (p : list step) : bool :=
  match p with
  | Key k :: r =>
      if decide (k = K_entry) then
        match r with
        | Idx _ :: Key k2 :: r2 =>
            if decide (k2 = K_fullUrl) then false
            else if decide (k2 = K_generated_uuid) then false
            else if decide (k2 = K_resource) then kept_in_record r2
            else true
        | _ => false
        end
      else kept_in_record p
  | _ => false
  end.



(** [rekeyed d d']: [d'] holds what [d] held under every key but [id] and
    [identifier], and a sequence under [identifier] only grew at its end.
    This is how a record, and the bundle, is left by its re-keying. *)
Definition rekeyed (d d' : dict) : Prop :=
  (forall k, k <> K_id -> k <> K_identifier -> dict_get k d' = dict_get k d)
  /\ (forall l, dict_get K_identifier d = Some (JArr l) ->
      exists l', dict_get K_identifier d' = Some (JArr l') /\ l `prefix_of` l').

(** The entries on which neither loop raises: a dict whose [resource] is
    absent or a dict, with a [resourceType] that can be hashed whenever it is
    registered. *)
Definition entry_ok (e : json) : bool :=
  match e with
  | JObj ed =>
      match resource_of ed with
      | Some rd =>
          let rtype := dict_get_or_null K_resourceType rd in
          match dict_get_or_null K_id rd with
          | JStr _ => negb (truthy rtype) || hashable rtype
          | _ => true
          end
      | None => false
      end
  | _ => false
  end.

(** *** The sanitizer as the specification words it *)

(** [t] is [s] with the surrounding characters of class [p] trimmed. *)
Definition trimmed (p : N -> bool) (s t : str) : Prop :=
  exists pre suf,
    s = pre ++ t ++ suf
    /\ Forall (fun c => p c = true) pre
    /\ Forall (fun c => p c = true) suf
    /\ (forall c, head t = Some c -> p c = false)
    /\ (forall c, last t = Some c -> p c = false).

(** The maximal runs of [s]: consecutive characters that are all whitespace
    or all not, each run with its class. *)
Fixpoint runs (s : str) : list (bool * str) :=
  match s with
  | [] => []
  | c :: r =>
      match runs r with
      | (b, run) :: rest =>
          if Bool.eqb b (is_space c) then (b, c :: run) :: rest
          else (is_space c, [c]) :: (b, run) :: rest
      | [] => [(is_space c, [c])]
      end
  end.

(** Every maximal run of whitespace replaced by one hyphen. *)
Definition collapse_runs (s : str) : str :=
  concat ((fun br : bool * str => if br.1 then [45] else br.2) <$> runs s).

(** Rules (1) to (3) of the sanitizer, in order. *)
Definition sanitized (s out : str) : Prop :=
  exists t1 t2,
    trimmed is_space s t1
    /\ trimmed is_quote t1 t2
    /\ ((URN_PREFIX `prefix_of` t2 \/ HASH `prefix_of` t2) -> out = t2)
    /\ (~ (URN_PREFIX `prefix_of` t2 \/ HASH `prefix_of` t2) ->
        out = collapse_runs t2).

(** *** The forms of a cross-reference *)

(** [Kind]: a letter followed by one or more letters or digits. *)
Definition kind_token (kind : str) : Prop :=
  exists c k ks,
    kind = c :: k :: ks
    /\ is_alpha c = true
    /\ Forall (fun x => is_alnum x = true) (k :: ks).

(** [local-identity]: 1 to 64 characters among letters, digits, [-] and
    [.]. *)
Definition id_token (id : str) : Prop :=
  Forall (fun x => is_id_char x = true) id
  /\ (1 <= length id <= 64)%nat.



(** [ref_in j v]: somewhere in [j], at any depth, a mapping holds the
    string [v] under the key [reference]. *)
Inductive ref_in : json -> str -> Prop :=
| ref_in_here (d : dict) (v : str) :
    (K_reference, JStr v) ∈ d -> ref_in (JObj d) v
| ref_in_obj (d : dict) (k : str) (x : json) (v : str) :
    (k, x) ∈ d -> ref_in x v -> ref_in (JObj d) v
| ref_in_arr (l : list json) (x : json) (v : str) :
    x ∈ l -> ref_in x v -> ref_in (JArr l) v.

(** The entries for which the second loop draws an identifier of its own:
    those that came with a falsy [_generated_uuid], which [setdefault] keeps
    and [or] rejects. *)
Definition redrawn (e : json) : bool :=
  match e with
  | JObj ed =>
      match dict_get K_generated_uuid ed with
      | Some x => negb (truthy x)
      | None => false
      end
  | _ => false
  end.

(** What the pattern reads in a candidate, after its text: an optional base
    [http://host/segment/] or [https://host/segment/], the kind, a slash and
    the local identity, up to the end of the candidate or to one newline
    that ends it. *)
Definition pattern_form (c kind id : str) : Prop :=
  exists base nl,
    c = base ++ kind ++ 47 :: id ++ nl
    /\ (nl = [] \/ nl = [10])
    /\ kind_token kind /\ id_token id
    /\ (base = []
        \/ exists scheme host seg,
             (scheme = lit "http://" \/ scheme = lit "https://")
             /\ host <> [] /\ seg <> []
             /\ Forall (fun x => x <> 47) host
             /\ Forall (fun x => x <> 47) seg
             /\ base = scheme ++ host ++ 47 :: seg ++ [47]).


(** *** Two statements that do not hold as they stand *)




(** *** Sample documents *)

Definition jstr (s : string) : json := JStr (lit s).

(** The random draws and the rendering used with the samples (no sample
    formats a value other than a string). *)
Definition sample_draws (n : nat) : N := 1000003 * N.of_nat n + 7.
Definition sample_py_str (v : json) : str :=
  match v with
  | JBool true => lit "True"
  | JBool false => lit "False"
  | JNull => lit "None"
  | _ => lit "?"
  end.

(** An observation that refers to the patient that follows it. *)
Definition sample_bundle : dict :=
  [(lit "resourceType", jstr "Bundle");
   (lit "entry", JArr [
      JObj [(lit "fullUrl", jstr "https://example.org/fhir/Observation/abc");
            (lit "resource", JObj [
               (lit "resourceType", jstr "Observation");
               (lit "id", jstr "abc");
               (lit "code", JObj [(lit "coding", JArr [
                  JObj [(lit "system", jstr "http://loinc.org");
                        (lit "code", jstr "Patient/123")]])]);
               (lit "subject", JObj [(lit "reference", jstr "Patient/123")]);
               (lit "performer", JArr [
                  JObj [(lit "reference", jstr "Practitioner/zz")]])])];
      JObj [(lit "resource", JObj [
               (lit "resourceType", jstr "Patient");
               (lit "id", jstr "123");
               (lit "identifier", JArr [
                  JObj [(lit "system", jstr "urn:mrn");
                        (lit "value", jstr "0042")]]);
               (lit "link", JArr [JObj [(lit "other", JObj [
                  (lit "reference",
                   jstr "https://example.org/fhir/Observation/abc")])]])])]])].




(** An entry that already carries the helper key. *)
Definition stash_bundle : dict :=
  [(lit "resourceType", jstr "Bundle");
   (lit "entry", JArr [
      JObj [(lit "_generated_uuid", jstr "x");
            (lit "resource", JObj [
               (lit "resourceType", jstr "Patient");
               (lit "id", jstr "1")])];
      JObj [(lit "resource", JObj [
               (lit "resourceType", jstr "Observation");
               (lit "id", jstr "o1");
               (lit "subject", JObj [(lit "reference", jstr "Patient/1")])])]])].

(** A local pointer followed by a space. *)
Definition local_bundle : dict :=
  [(lit "resourceType", jstr "Bundle");
   (lit "entry", JArr [
      JObj [(lit "resource", JObj [
               (lit "resourceType", jstr "Observation");
               (lit "id", jstr "o1");
               (lit "subject", JObj [(lit "reference", jstr "#p1 ")])])]])].





(** * Properties *)

(** ** Python strings and the sanitizer *)

Lemma lstrip_all (p : N -> bool) (s : str) :
  Forall (fun c => p c = true) s -> lstrip p s = [].
Proof.
  induction 1 as [|c r Hc _ IH]; simpl; [done|]. by rewrite Hc.
Qed.

Lemma lstrip_app_all (p : N -> bool) (pre t : str) :
  Forall (fun c => p c = true) pre -> lstrip p (pre ++ t) = lstrip p t.
Proof.
  induction 1 as [|c r Hc _ IH]; simpl; [done|]. by rewrite Hc.
Qed.

Lemma lstrip_head_false (p : N -> bool) (t : str) :
  (forall c, head t = Some c -> p c = false) -> lstrip p t = t.
Proof.
  destruct t as [|c r]; simpl; [done|].
  intros H. by rewrite (H c eq_refl).
Qed.

Lemma lstrip_decomp (p : N -> bool) (s : str) :
  exists pre,
    s = pre ++ lstrip p s
    /\ Forall (fun c => p c = true) pre
    /\ (forall c, head (lstrip p s) = Some c -> p c = false).
Proof.
  induction s as [|c r (pre & Hs & Hpre & Hhd)]; simpl.
  - exists []. by repeat split.
  - destruct (p c) eqn:Hc.
    + exists (c :: pre). simpl. split; [by f_equal|]. split; [|done].
      by constructor.
    + exists []. repeat split; [constructor|]. simpl. by intros ? [= <-].
Qed.

Lemma head_rev (s : str) : head (rev s) = last s.
Proof.
  induction s as [|c r IH]; simpl; [done|].
  by rewrite head_app, IH, last_cons.
Qed.

Lemma Forall_rev_iff (P : N -> Prop) (s : str) : Forall P s -> Forall P (rev s).
Proof.
  intros H. apply List.Forall_forall. intros x Hx.
  apply List.in_rev in Hx. by eapply List.Forall_forall in H.
Qed.

(** [strip] is the trimming the specification describes. *)
Lemma trimmed_strip (p : N -> bool) (s : str) : trimmed p s (strip p s).
Proof.
  unfold strip, rstrip.
  destruct (lstrip_decomp p s) as (pre & Hs & Hpre & Hhd).
  destruct (lstrip_decomp p (rev (lstrip p s))) as (suf & Hr & Hsuf & Hlast).
  set (s1 := lstrip p s) in *. set (m := lstrip p (rev s1)) in *.
  assert (Hs1 : s1 = rev m ++ rev suf).
  { rewrite <- rev_app_distr, <- Hr. by rewrite rev_involutive. }
  exists pre, (rev suf). repeat split.
  - by rewrite <- Hs1.
  - done.
  - by apply Forall_rev_iff.
  - intros c Hc. apply Hhd. rewrite Hs1, head_app, Hc. done.
  - intros c Hc. apply Hlast. rewrite <- head_rev in Hc.
    by rewrite rev_involutive in Hc.
Qed.

Lemma trimmed_unique (p : N -> bool) (s t : str) :
  trimmed p s t -> t = strip p s.
Proof.
  intros (pre & suf & -> & Hpre & Hsuf & Hhd & Hlast).
  unfold strip, rstrip. rewrite lstrip_app_all by done.
  destruct t as [|c t'].
  - simpl. rewrite (lstrip_all p suf) by done. done.
  - assert (Hl : lstrip p ((c :: t') ++ suf) = (c :: t') ++ suf).
    { simpl. by rewrite (Hhd c eq_refl). }
    rewrite Hl, rev_app_distr.
    rewrite lstrip_app_all; [|by apply Forall_rev_iff].
    rewrite lstrip_head_false; [by rewrite rev_involutive|].
    intros d. rewrite head_rev. apply Hlast.
Qed.

Lemma startswith_prefix (s pre : str) :
  startswith s pre = true <-> pre `prefix_of` s.
Proof.
  revert s. induction pre as [|a pre IH]; intros s; simpl.
  - split; [intros _; apply prefix_nil | by destruct s].
  - destruct s as [|b s'].
    + split; [done|]. intros [k Hk]. discriminate.
    + rewrite andb_true_iff, N.eqb_eq, IH. split.
      * intros [-> H]. by apply prefix_cons.
      * intros H. split; [by apply prefix_cons_inv_1 in H|].
        by apply prefix_cons_inv_2 in H.
Qed.

(** The equation of [re.sub]: a run is skipped as a whole. *)
Lemma re_sub_ws_cons (c : N) (r : str) :
  re_sub_ws (c :: r) =
  if is_space c then 45 :: re_sub_ws (lstrip is_space r)
  else c :: re_sub_ws r.
Proof.
  simpl. destruct (is_space c); [|done]. f_equal.
  induction r as [|d r IH]; simpl; [done|].
  destruct (is_space d) eqn:Hd; [done|]. simpl. by rewrite Hd.
Qed.

Lemma runs_head (c : N) (r : str) :
  exists run rest, runs (c :: r) = (is_space c, c :: run) :: rest.
Proof.
  simpl. destruct (runs r) as [|[b run] rest]; [by eexists _, _|].
  destruct (Bool.eqb b (is_space c)) eqn:E; [|by eexists _, _].
  apply Bool.eqb_prop in E. subst b. by eexists _, _.
Qed.

Lemma runs_cons (c : N) (r : str) :
  runs (c :: r) =
  match runs r with
  | (b, run) :: rest =>
      if Bool.eqb b (is_space c) then (b, c :: run) :: rest
      else (is_space c, [c]) :: (b, run) :: rest
  | [] => [(is_space c, [c])]
  end.
Proof. done. Qed.

Lemma collapse_runs_cons (c : N) (r : str) :
  collapse_runs (c :: r) =
  if is_space c then 45 :: collapse_runs (lstrip is_space r)
  else c :: collapse_runs r.
Proof.
  revert c. induction r as [|d r IH]; intros c.
  - unfold collapse_runs. simpl. by destruct (is_space c).
  - specialize (IH d).
    destruct (runs_head d r) as (run & rest & Hr).
    unfold collapse_runs in *. rewrite runs_cons, Hr. rewrite Hr in IH.
    cbn [lstrip].
    destruct (is_space c) eqn:Hc, (is_space d) eqn:Hd; simpl in *.
    + by injection IH as ->.
    + by rewrite Hr.
    + done.
    + done.
Qed.

Lemma lstrip_length (p : N -> bool) (s : str) :
  (length (lstrip p s) <= length s)%nat.
Proof.
  induction s as [|c r IH]; simpl; [done|]. destruct (p c); simpl; lia.
Qed.

(** [re.sub(r"\s+", "-", s)] replaces each maximal run of whitespace by one
    hyphen. *)
Lemma re_sub_ws_collapse (s : str) : re_sub_ws s = collapse_runs s.
Proof.
  remember (length s) as n eqn:Hn. revert s Hn.
  induction n as [n IH] using lt_wf_ind. intros [|c r] Hn; [done|].
  rewrite re_sub_ws_cons, collapse_runs_cons. simpl in Hn.
  destruct (is_space c); f_equal.
  - eapply IH; [|done]. pose proof (lstrip_length is_space r). lia.
  - eapply IH; [|done]. lia.
Qed.

(** C8. For every input string, the output of the sanitizer is the result of
    the three rules applied in order: trim the surrounding whitespace, then
    the enclosing quote characters; return the result as it is when it
    starts with [urn:uuid:] or [#]; otherwise replace each maximal run of
    whitespace by one hyphen.  The rules determine one output for every
    input, and the sanitizer returns it: it has no failing case. *)
Theorem sanitize_ref_string_rules (s out : str) :
  sanitized s out <-> out = sanitize_ref_string s.
Proof.
  unfold sanitized, sanitize_ref_string. split.
  - intros (t1 & t2 & H1 & H2 & Hyes & Hno).
    apply trimmed_unique in H1 as ->. apply trimmed_unique in H2 as ->.
    set (s2 := strip is_quote (strip is_space s)) in *.
    destruct (startswith s2 URN_PREFIX || startswith s2 HASH) eqn:E.
    + apply Hyes. apply orb_true_iff in E.
      by rewrite <- !startswith_prefix.
    + rewrite re_sub_ws_collapse. apply Hno.
      rewrite <- !startswith_prefix. intros H%orb_true_iff. congruence.
  - intros ->. exists (strip is_space s), (strip is_quote (strip is_space s)).
    split; [apply trimmed_strip|]. split; [apply trimmed_strip|].
    set (s2 := strip is_quote (strip is_space s)).
    rewrite <- !startswith_prefix.
    destruct (startswith s2 URN_PREFIX || startswith s2 HASH) eqn:E.
    + split; [done|]. intros H. exfalso. apply H. by apply orb_true_iff.
    + split; [|by rewrite re_sub_ws_collapse].
      intros H%orb_true_iff. congruence.
Qed.

(** ** Dicts *)

Lemma dict_get_set_eq (k : str) (v : json) (d : dict) :
  dict_get k (dict_set k v d) = Some v.
Proof.
  induction d as [|[k' v'] r IH]; simpl.
  - by rewrite decide_True.
  - destruct (decide (k' = k)) as [->|Hne]; simpl.
    + by rewrite decide_True.
    + by rewrite decide_False.
Qed.

Lemma dict_get_set_ne (k k' : str) (v : json) (d : dict) :
  k <> k' -> dict_get k (dict_set k' v d) = dict_get k d.
Proof.
  intros Hne. induction d as [|[k2 v2] r IH]; simpl.
  - by rewrite decide_False.
  - destruct (decide (k2 = k')) as [->|Hne2]; simpl.
    + by rewrite !decide_False.
    + by rewrite IH.
Qed.

Lemma dict_get_del_eq (k : str) (d : dict) : dict_get k (dict_del k d) = None.
Proof.
  unfold dict_del. induction d as [|[k' v'] r IH]; [done|].
  rewrite filter_cons. simpl. destruct (decide (k' <> k)) as [Hne|Heq]; simpl.
  - by rewrite decide_False.
  - done.
Qed.

Lemma dict_get_del_ne (k k' : str) (d : dict) :
  k <> k' -> dict_get k (dict_del k' d) = dict_get k d.
Proof.
  intros Hne. unfold dict_del. induction d as [|[k2 v2] r IH]; [done|].
  rewrite filter_cons. simpl. destruct (decide (k2 <> k')) as [Hne2|Heq]; simpl.
  - by rewrite IH.
  - apply dec_stable in Heq as ->. by rewrite decide_False.
Qed.

Lemma dict_get_setdefault_ne (k k' : str) (v : json) (d : dict) :
  k <> k' -> dict_get k (dict_setdefault k' v d) = dict_get k d.
Proof.
  intros Hne. unfold dict_setdefault.
  destruct (dict_get k' d); [done|]. by apply dict_get_set_ne.
Qed.

(** ** The identifier augmentor *)

Lemma same_ident_urn_ident (u : str) : same_ident u (urn_ident u) = true.
Proof.
  unfold same_ident, urn_ident. simpl. by rewrite bool_decide_eq_true_2.
Qed.

Lemma add_identifier_fixed (resource : dict) (urn_value : str) (l : list json) :
  dict_get K_identifier resource = Some (JArr l) ->
  existsb (same_ident urn_value) l = true ->
  add_identifier resource urn_value = resource.
Proof. intros Hl Hex. unfold add_identifier. by rewrite Hl, Hex. Qed.

Lemma add_identifier_has (resource : dict) (urn_value : str) :
  exists l,
    dict_get K_identifier (add_identifier resource urn_value) = Some (JArr l)
    /\ existsb (same_ident urn_value) l = true.
Proof.
  pose proof (same_ident_urn_ident urn_value) as Hs.
  unfold add_identifier.
  destruct (dict_get K_identifier resource) as [[|b|z|f|s|l|o]|] eqn:Hg;
    try (eexists; rewrite dict_get_set_eq; split; [reflexivity|];
         cbn [existsb]; by rewrite Hs, ?orb_true_r).
  destruct (existsb (same_ident urn_value) l) eqn:Hex.
  - by exists l.
  - eexists. rewrite dict_get_set_eq. split; [done|].
    rewrite existsb_app. cbn [existsb]. by rewrite Hs, orb_true_r.
Qed.

(** C6. Applying the identifier augmentor a second time with the same
    canonical value changes nothing: the record, and so its identifier
    field, is the one the first application produced; the
    [{system, value}] entry is not appended again. *)
Theorem add_identifier_idempotent (resource : dict) (urn_value : str) :
  add_identifier (add_identifier resource urn_value) urn_value
  = add_identifier resource urn_value.
Proof.
  destruct (add_identifier_has resource urn_value) as (l & Hl & Hex).
  by apply add_identifier_fixed with l.
Qed.

(** C7. The identifier augmentor removes no identifier entry: an absent
    field becomes the sequence holding just the new entry; a single object
    becomes the two-element sequence of that object, then the new entry; a
    sequence is kept as a prefix of the resulting sequence, so every one of
    its elements is still present, at its index. *)
Theorem add_identifier_preserves (resource : dict) (urn_value : str) :
  (dict_get K_identifier resource = None ->
   dict_get K_identifier (add_identifier resource urn_value)
   = Some (JArr [urn_ident urn_value]))
  /\ (forall o, dict_get K_identifier resource = Some (JObj o) ->
      dict_get K_identifier (add_identifier resource urn_value)
      = Some (JArr [JObj o; urn_ident urn_value]))
  /\ (forall l, dict_get K_identifier resource = Some (JArr l) ->
      exists l',
        dict_get K_identifier (add_identifier resource urn_value)
        = Some (JArr l')
        /\ l `prefix_of` l'
        /\ forall x, x ∈ l -> x ∈ l').
Proof.
  unfold add_identifier. repeat split.
  - intros ->. apply dict_get_set_eq.
  - intros o ->. apply dict_get_set_eq.
  - intros l Hl. rewrite Hl.
    destruct (existsb (same_ident urn_value) l).
    + exists l. by rewrite Hl.
    + exists (l ++ [urn_ident urn_value]). rewrite dict_get_set_eq.
      split; [done|]. split; [by apply prefix_app_r|].
      intros x Hx. apply elem_of_app. by left.
Qed.

(** ** The recursive reference rewriter *)

Lemma rewrite_references_obj (bf bt : gmap str str) (d : dict) (u : gset str) :
  rewrite_references (JObj d) bf bt u
  = let '(d', u') := rewrite_items bf bt d u in (JObj d', u').
Proof. reflexivity. Qed.

Lemma rewrite_references_arr (bf bt : gmap str str) (l : list json) (u : gset str) :
  rewrite_references (JArr l) bf bt u
  = let '(l', u') := rewrite_elems bf bt l u in (JArr l', u').
Proof. reflexivity. Qed.

(** The returned object does not depend on the set passed in, and the set
    only grows. *)
Lemma rewrite_references_fst (bf bt : gmap str str) (obj : json) :
  forall u, (rewrite_references obj bf bt u).1 = rewrite_json bf bt obj.
Proof.
  unfold rewrite_json.
  induction obj as [| | | | |l IH|d IH] using json_ind; intros u; try done.
  - rewrite !rewrite_references_arr.
    generalize (∅ : gset str). revert u.
    induction IH as [|x r Hx _ IHr]; intros u u'; [done|]. simpl.
    pose proof (Hx u) as H1. pose proof (Hx u') as H2.
    destruct (rewrite_references x bf bt u) as [x1 u1].
    destruct (rewrite_references x bf bt u') as [x2 u2].
    simpl in *. specialize (IHr u1 u2).
    destruct (rewrite_elems bf bt r u1) as [r1 w1].
    destruct (rewrite_elems bf bt r u2) as [r2 w2].
    simpl in *. congruence.
  - rewrite !rewrite_references_obj.
    generalize (∅ : gset str). revert u.
    induction IH as [|[k v] r Hx _ IHr]; intros u u'; [done|]. simpl in *.
    assert (Hv : (rewrite_item (fun x w => rewrite_references x bf bt w)
                    bf bt k v u).1
                 = (rewrite_item (fun x w => rewrite_references x bf bt w)
                      bf bt k v u').1).
    { unfold rewrite_item. destruct v; try (rewrite (Hx u), (Hx u'); done).
      destruct (decide (k = K_reference)); [|done].
      destruct (map_reference s bf bt); [done|].
      by destruct (negb _ && negb _). }
    destruct (rewrite_item _ bf bt k v u) as [x1 u1].
    destruct (rewrite_item _ bf bt k v u') as [x2 u2].
    simpl in Hv. specialize (IHr u1 u2).
    destruct (rewrite_items bf bt r u1) as [r1 w1].
    destruct (rewrite_items bf bt r u2) as [r2 w2].
    simpl in *. congruence.
Qed.

Lemma rewrite_item_fst (bf bt : gmap str str) (k : str) (v : json) (u : gset str) :
  (rewrite_item (fun x w => rewrite_references x bf bt w) bf bt k v u).1
  = item_value bf bt k v.
Proof.
  unfold rewrite_item, item_value, resolve.
  destruct v; try apply rewrite_references_fst.
  destruct (decide (k = K_reference)); [|done].
  destruct (map_reference s bf bt); [done|].
  by destruct (negb _ && negb _).
Qed.

Lemma rewrite_items_fst (bf bt : gmap str str) (d : dict) (u : gset str) :
  (rewrite_items bf bt d u).1
  = (fun kv => (kv.1, item_value bf bt kv.1 kv.2)) <$> d.
Proof.
  revert u. induction d as [|[k v] r IH]; intros u; [done|]. simpl.
  pose proof (rewrite_item_fst bf bt k v u) as Hv.
  destruct (rewrite_item _ bf bt k v u) as [x1 u1]. simpl in Hv.
  specialize (IH u1). destruct (rewrite_items bf bt r u1) as [r1 w1].
  simpl in *. by rewrite Hv, IH.
Qed.

Lemma rewrite_elems_fst (bf bt : gmap str str) (l : list json) (u : gset str) :
  (rewrite_elems bf bt l u).1 = rewrite_json bf bt <$> l.
Proof.
  revert u. induction l as [|x r IH]; intros u; [done|]. simpl.
  pose proof (rewrite_references_fst bf bt x u) as Hx.
  destruct (rewrite_references x bf bt u) as [x1 u1]. simpl in Hx.
  specialize (IH u1). destruct (rewrite_elems bf bt r u1) as [r1 w1].
  simpl in *. by rewrite Hx, IH.
Qed.

Lemma rewrite_json_obj (bf bt : gmap str str) (d : dict) :
  rewrite_json bf bt (JObj d)
  = JObj ((fun kv => (kv.1, item_value bf bt kv.1 kv.2)) <$> d).
Proof.
  unfold rewrite_json. rewrite rewrite_references_obj.
  pose proof (rewrite_items_fst bf bt d ∅) as H.
  destruct (rewrite_items bf bt d ∅). simpl in *. by rewrite H.
Qed.

Lemma rewrite_json_arr (bf bt : gmap str str) (l : list json) :
  rewrite_json bf bt (JArr l) = JArr (rewrite_json bf bt <$> l).
Proof.
  unfold rewrite_json. rewrite rewrite_references_arr.
  pose proof (rewrite_elems_fst bf bt l ∅) as H.
  destruct (rewrite_elems bf bt l ∅). simpl in *. by rewrite H.
Qed.

Lemma dict_get_item_value (bf bt : gmap str str) (k : str) (d : dict) :
  dict_get k ((fun kv => (kv.1, item_value bf bt kv.1 kv.2)) <$> d)
  = item_value bf bt k <$> dict_get k d.
Proof.
  induction d as [|[k' v] r IH]; [done|]. simpl.
  destruct (decide (k' = k)) as [->|]; [done|]. apply IH.
Qed.
Lemma tagged_cons (s : step) (p : list step) :
  p <> [] -> tagged (s :: p) = tagged p.
Proof. unfold tagged. destruct p; [done|]. intros _. by rewrite last_cons_cons. Qed.

Lemma get_path_scalar (x : json) (p : list step) :
  p <> [] -> (forall l, x <> JArr l) -> (forall d, x <> JObj d) ->
  get_path x p = None.
Proof. destruct p as [|[k|i] r]; [done| |]; by destruct x; intros; try congruence. Qed.

(** What a pass leaves at every position of a document. *)
Lemma get_path_rewrite_json (bf bt : gmap str str) (p : list step) :
  forall obj,
    get_path (rewrite_json bf bt obj) p = rewrite_at bf bt p <$> get_path obj p.
Proof.
  induction p as [|[k|i] r IH]; intros obj.
  - simpl. unfold rewrite_at, tagged. simpl. by destruct obj.
  - destruct obj as [| | | | |l|d]; try reflexivity.
    { by rewrite rewrite_json_arr. }
    rewrite rewrite_json_obj. cbn [get_path]. rewrite dict_get_item_value.
    destruct (dict_get k d) as [y|]; [|done]. cbn [fmap option_fmap option_map].
    destruct (decide (r = [])) as [->|Hr].
    + simpl. unfold item_value, rewrite_at, tagged. simpl.
      destruct y; try done.
      destruct (decide (k = K_reference));
        [by rewrite bool_decide_eq_true_2|by rewrite bool_decide_eq_false_2].
    + destruct y; try (unfold item_value; rewrite IH; unfold rewrite_at;
        by rewrite tagged_cons).
      unfold item_value. destruct (decide (k = K_reference));
        by rewrite !get_path_scalar.
  - destruct obj as [| | | | |l|d]; try reflexivity.
    2: { by rewrite rewrite_json_obj. }
    rewrite rewrite_json_arr. cbn [get_path]. rewrite list_lookup_fmap.
    destruct (l !! i) as [y|]; [|done]. cbn [fmap option_fmap option_map].
    rewrite IH. destruct (decide (r = [])) as [->|Hr].
    + simpl. unfold rewrite_at, tagged. simpl. by destruct y.
    + unfold rewrite_at. by rewrite tagged_cons.
Qed.

Lemma rewrite_at_leaf (bf bt : gmap str str) (p : list step) (x : json) :
  (forall l, x <> JArr l) -> (forall d, x <> JObj d) ->
  (tagged p = false \/ forall s, x <> JStr s) ->
  rewrite_at bf bt p x = x.
Proof.
  intros Hl Hd Ht. unfold rewrite_at.
  destruct x; try done.
  - destruct Ht as [->|H]; [done|]. by destruct (H s).
  - by destruct (Hl l).
  - by destruct (Hd d).
Qed.

Lemma mask_refs_obj (d : dict) :
  mask_refs (JObj d)
  = JObj ((fun kv =>
             (kv.1, match kv.2 with
                    | JStr _ =>
                        if decide (kv.1 = K_reference) then JStr [] else kv.2
                    | _ => mask_refs kv.2
                    end)) <$> d).
Proof.
  simpl. f_equal. induction d as [|[k v] r IH]; [done|].
  simpl. by rewrite IH.
Qed.

Lemma mask_refs_rewrite_json (bf bt : gmap str str) (obj : json) :
  mask_refs (rewrite_json bf bt obj) = mask_refs obj.
Proof.
  induction obj as [| | | | |l IH|d IH] using json_ind; try done.
  - rewrite rewrite_json_arr. simpl. f_equal.
    induction IH as [|x r Hx _ IHr]; [done|].
    rewrite fmap_cons. cbn [List.map]. by rewrite Hx, IHr.
  - rewrite rewrite_json_obj, !mask_refs_obj. f_equal.
    induction IH as [|[k v] r Hx _ IHr]; [done|].
    rewrite !fmap_cons. rewrite IHr. f_equal. simpl in *. f_equal.
    unfold item_value. destruct v; try done.
    + by destruct (decide (k = K_reference)).
    + rewrite <- Hx. by rewrite rewrite_json_arr.
    + rewrite <- Hx. by rewrite rewrite_json_obj.
Qed.

(** C9. One pass of the recursive rewriter changes nothing but the content
    of strings stored under the key [reference]: with those blanked, the
    returned document is the given one (same keys in the same order, same
    sequences, same values), and every scalar that is not a string under the
    key [reference] is found unchanged at its position, whatever it looks
    like. *)
Theorem rewrite_references_frame (bf bt : gmap str str) (obj : json)
    (unknown : gset str) :
  mask_refs (rewrite_references obj bf bt unknown).1 = mask_refs obj
  /\ forall p x,
      get_path obj p = Some x ->
      (forall l, x <> JArr l) -> (forall d, x <> JObj d) ->
      (tagged p = false \/ forall s, x <> JStr s) ->
      get_path (rewrite_references obj bf bt unknown).1 p = Some x.
Proof.
  rewrite rewrite_references_fst. split; [apply mask_refs_rewrite_json|].
  intros p x Hp Hl Hd Ht.
  rewrite get_path_rewrite_json, Hp. simpl. by rewrite rewrite_at_leaf.
Qed.

Lemma rewrite_item_mono (bf bt : gmap str str) (k : str) (v : json) :
  (forall u, u ⊆ (rewrite_references v bf bt u).2) ->
  forall u,
    u ⊆ (rewrite_item (fun x w => rewrite_references x bf bt w) bf bt k v u).2.
Proof.
  intros Hv u. unfold rewrite_item. destruct v; try apply Hv.
  destruct (decide (k = K_reference)); [|done].
  destruct (map_reference s bf bt); [done|].
  destruct (negb _ && negb _); simpl; set_solver.
Qed.

Lemma rewrite_references_mono (bf bt : gmap str str) (obj : json) :
  forall u, u ⊆ (rewrite_references obj bf bt u).2.
Proof.
  induction obj as [| | | | |l IH|d IH] using json_ind; intros u; try done.
  - rewrite rewrite_references_arr. revert u.
    induction IH as [|x r Hx _ IHr]; intros u; [done|]. simpl.
    specialize (Hx u). destruct (rewrite_references x bf bt u) as [x1 u1].
    specialize (IHr u1). destruct (rewrite_elems bf bt r u1) as [r1 w1].
    simpl in *. set_solver.
  - rewrite rewrite_references_obj. revert u.
    induction IH as [|[k v] r Hx _ IHr]; intros u; [done|]. simpl in *.
    pose proof (rewrite_item_mono bf bt k v Hx u) as Hi.
    destruct (rewrite_item _ bf bt k v u) as [x1 u1].
    specialize (IHr u1). destruct (rewrite_items bf bt r u1) as [r1 w1].
    simpl in *. set_solver.
Qed.

Lemma rewrite_items_mono (bf bt : gmap str str) (d : dict) (u : gset str) :
  u ⊆ (rewrite_items bf bt d u).2.
Proof.
  pose proof (rewrite_references_mono bf bt (JObj d) u) as H.
  rewrite rewrite_references_obj in H.
  by destruct (rewrite_items bf bt d u).
Qed.

Lemma rewrite_elems_mono (bf bt : gmap str str) (l : list json) (u : gset str) :
  u ⊆ (rewrite_elems bf bt l u).2.
Proof.
  pose proof (rewrite_references_mono bf bt (JArr l) u) as H.
  rewrite rewrite_references_arr in H.
  by destruct (rewrite_elems bf bt l u).
Qed.

Lemma rewrite_items_unknown_at (bf bt : gmap str str) (k : str) (y : json)
    (v : str) (d : dict) :
  dict_get k d = Some y ->
  (forall u,
     v ∈ (rewrite_item (fun x w => rewrite_references x bf bt w)
            bf bt k y u).2) ->
  forall u, v ∈ (rewrite_items bf bt d u).2.
Proof.
  intros Hk Hy. induction d as [|[k' v'] r IH]; intros u; [done|].
  simpl in *. destruct (decide (k' = k)) as [->|Hne].
  - injection Hk as ->. specialize (Hy u).
    destruct (rewrite_item _ bf bt k y u) as [x1 u1].
    pose proof (rewrite_items_mono bf bt r u1) as Hm.
    destruct (rewrite_items bf bt r u1). simpl in *. set_solver.
  - destruct (rewrite_item _ bf bt k' v' u) as [x1 u1].
    specialize (IH Hk u1). by destruct (rewrite_items bf bt r u1).
Qed.

Lemma rewrite_elems_unknown_at (bf bt : gmap str str) (i : nat) (y : json)
    (v : str) (l : list json) :
  l !! i = Some y ->
  (forall u, v ∈ (rewrite_references y bf bt u).2) ->
  forall u, v ∈ (rewrite_elems bf bt l u).2.
Proof.
  intros Hi Hy. revert i Hi. induction l as [|x r IH]; intros i Hi u; [done|].
  simpl. destruct i as [|i]; simpl in Hi.
  - injection Hi as ->. specialize (Hy u).
    destruct (rewrite_references y bf bt u) as [x1 u1].
    pose proof (rewrite_elems_mono bf bt r u1) as Hm.
    destruct (rewrite_elems bf bt r u1). simpl in *. set_solver.
  - destruct (rewrite_references x bf bt u) as [x1 u1].
    specialize (IH i Hi u1). by destruct (rewrite_elems bf bt r u1).
Qed.

(** ** The reference matcher *)

Lemma lstrip_app_keep (p : N -> bool) (a q : str) :
  Forall (fun c => p c = false) q -> lstrip p (a ++ q) = lstrip p a ++ q.
Proof.
  intros Hq. induction a as [|c a IH]; simpl.
  - destruct Hq as [|c q Hc _]; simpl; [done|]. by rewrite Hc.
  - by destruct (p c).
Qed.

Lemma rstrip_last_false (p : N -> bool) (s : str) :
  (forall c, last s = Some c -> p c = false) -> rstrip p s = s.
Proof.
  intros H. unfold rstrip. rewrite lstrip_head_false.
  - apply rev_involutive.
  - intros c. rewrite head_rev. apply H.
Qed.

Lemma strip_keep_prefix (p : N -> bool) (pre b : str) :
  pre <> [] -> Forall (fun c => p c = false) pre ->
  strip p (pre ++ b) = pre ++ rstrip p b.
Proof.
  intros Hne Hpre. unfold strip.
  rewrite (lstrip_head_false p (pre ++ b)).
  - unfold rstrip. rewrite rev_app_distr, lstrip_app_keep.
    + by rewrite rev_app_distr, rev_involutive.
    + apply List.Forall_forall. intros x Hx%List.in_rev.
      by eapply List.Forall_forall in Hpre.
  - destruct Hpre as [|c q Hc _]; [done|]. simpl. by intros ? [= <-].
Qed.

Lemma startswith_app (pre b : str) : startswith (pre ++ b) pre = true.
Proof. apply startswith_prefix. by apply prefix_app_r. Qed.

Lemma startswith_split (s pre : str) :
  startswith s pre = true -> exists b, s = pre ++ b.
Proof. intros [b ->]%startswith_prefix. by exists b. Qed.

Lemma URN_PREFIX_plain :
  Forall (fun c => is_space c = false) URN_PREFIX
  /\ Forall (fun c => is_quote c = false) URN_PREFIX.
Proof. split; repeat constructor. Qed.

Lemma HASH_plain :
  Forall (fun c => is_space c = false) HASH
  /\ Forall (fun c => is_quote c = false) HASH.
Proof. split; repeat constructor. Qed.

(** A value that starts with a prefix free of whitespace and quotes still
    starts with it after the two trims. *)
Lemma strips_keep_prefix (pre v : str) :
  pre <> [] ->
  Forall (fun c => is_space c = false) pre ->
  Forall (fun c => is_quote c = false) pre ->
  startswith v pre = true ->
  startswith (strip is_quote (strip is_space v)) pre = true.
Proof.
  intros Hne Hs Hq [b ->]%startswith_split.
  rewrite !strip_keep_prefix by done. apply startswith_app.
Qed.

Lemma sanitize_passthrough (v : str) :
  startswith v URN_PREFIX || startswith v HASH = true ->
  sanitize_ref_string v = strip is_quote (strip is_space v)
  /\ startswith (sanitize_ref_string v) URN_PREFIX
     || startswith (sanitize_ref_string v) HASH = true.
Proof.
  intros H. unfold sanitize_ref_string.
  assert (Hs : startswith (strip is_quote (strip is_space v)) URN_PREFIX
               || startswith (strip is_quote (strip is_space v)) HASH = true).
  { apply orb_true_iff in H as [H|H]; apply orb_true_iff; [left|right].
    - by apply strips_keep_prefix; [|apply URN_PREFIX_plain..|].
    - by apply strips_keep_prefix; [|apply HASH_plain..|]. }
  by rewrite Hs.
Qed.

(** An unresolved reference starts neither with [urn:uuid:] nor with [#],
    so the test that guards [unknown.add] always passes. *)
Lemma map_reference_None_raw (bf bt : gmap str str) (v : str) :
  map_reference v bf bt = None ->
  startswith v URN_PREFIX = false /\ startswith v HASH = false.
Proof.
  intros Hm. apply orb_false_iff.
  destruct (startswith v URN_PREFIX || startswith v HASH) eqn:E; [|done].
  apply sanitize_passthrough in E as [_ E].
  unfold map_reference in Hm. by rewrite E in Hm.
Qed.



(** A reference-tagged string the matcher cannot resolve is recorded. *)
Lemma rewrite_references_unknown (bf bt : gmap str str) (v : str) (p : list step) :
  map_reference v bf bt = None ->
  forall obj u, ref_at obj p v -> v ∈ (rewrite_references obj bf bt u).2.
Proof.
  intros Hm. destruct (map_reference_None_raw _ _ _ Hm) as [H1 H2].
  unfold ref_at. induction p as [|[k|i] r IH]; intros obj u Hp.
  - simpl in Hp. destruct obj as [| | | | |l|d]; try done.
    destruct (dict_get K_reference d) as [y|] eqn:Hy; [|done].
    injection Hp as ->. rewrite rewrite_references_obj.
    pose proof (rewrite_items_unknown_at bf bt K_reference (JStr v) v d Hy) as H.
    destruct (rewrite_items bf bt d u) eqn:E. simpl.
    replace g with (rewrite_items bf bt d u).2 by by rewrite E.
    apply H. intros w. unfold rewrite_item.
    rewrite decide_True, Hm, H1, H2 by done. simpl. set_solver.
  - simpl in Hp. destruct obj as [| | | | |l|d]; try done.
    destruct (dict_get k d) as [y|] eqn:Hy; [|done].
    rewrite rewrite_references_obj.
    pose proof (rewrite_items_unknown_at bf bt k y v d Hy) as H.
    destruct (rewrite_items bf bt d u) eqn:E. simpl.
    replace g with (rewrite_items bf bt d u).2 by by rewrite E.
    apply H. intros w. unfold rewrite_item.
    destruct y; try by apply IH.
    by destruct r as [|[?|?] ?].
  - simpl in Hp. destruct obj as [| | | | |l|d]; try done.
    destruct (l !! i) as [y|] eqn:Hy; [|done].
    rewrite rewrite_references_arr.
    pose proof (rewrite_elems_unknown_at bf bt i y v l Hy) as H.
    destruct (rewrite_elems bf bt l u) eqn:E. simpl.
    replace g with (rewrite_elems bf bt l u).2 by by rewrite E.
    apply H. intros w. by apply IH.
Qed.

(** ** Generated identifiers *)

Lemma length_hex_digits (k : nat) (n : N) : length (hex_digits k n) = k.
Proof.
  revert n. induction k as [|k IH]; intros n; simpl; [done|].
  rewrite length_app, IH. simpl. lia.
Qed.

Lemma hex_digit_plain (d : N) :
  d < 16 -> is_space (hex_digit d) = false /\ is_quote (hex_digit d) = false.
Proof.
  intros Hd.
  assert (H : d = 0 \/ d = 1 \/ d = 2 \/ d = 3 \/ d = 4 \/ d = 5 \/ d = 6
              \/ d = 7 \/ d = 8 \/ d = 9 \/ d = 10 \/ d = 11 \/ d = 12
              \/ d = 13 \/ d = 14 \/ d = 15) by lia.
  repeat (destruct H as [->|H]; [by vm_compute|]). subst. by vm_compute.
Qed.

Lemma last_uuid_str (n : N) :
  last (uuid_str n) = Some (hex_digit (n mod 16)).
Proof.
  unfold uuid_str. generalize (hex_digits 32 n) at 1 2 3 4. intros h.
  rewrite last_app_cons.
  do 3 (rewrite app_comm_cons, last_app_cons).
  change (hex_digits 32 n)
    with (hex_digits 31 (n / 16) ++ [hex_digit (n mod 16)]).
  rewrite drop_app_le by (rewrite length_hex_digits; lia).
  by rewrite app_comm_cons, last_snoc.
Qed.

Lemma uuid_str_truthy (n : N) : truthy (JStr (uuid_str n)) = true.
Proof.
  pose proof (last_uuid_str n) as H. simpl. by destruct (uuid_str n).
Qed.

(** A generated canonical encoding is left as it is by the sanitizer and
    maps to itself. *)
Lemma sanitize_urn_of_draw (n : nat) :
  sanitize_ref_string (urn_of_draw n) = urn_of_draw n.
Proof.
  assert (Hst : startswith (urn_of_draw n) URN_PREFIX = true)
    by apply startswith_app.
  destruct (sanitize_passthrough (urn_of_draw n)) as [-> _].
  { by rewrite Hst. }
  unfold urn_of_draw, to_urn, gen_uuid. simpl format_value.
  set (x := uuid4_int (entropy n)).
  destruct (hex_digit_plain (x mod 16)) as [Hs Hq].
  { apply N.mod_lt. lia. }
  rewrite !strip_keep_prefix by (done || apply URN_PREFIX_plain).
  rewrite (rstrip_last_false is_space (uuid_str x)),
    (rstrip_last_false is_quote (uuid_str x)); [done|..];
    intros c; rewrite last_uuid_str; by intros [= <-].
Qed.

Lemma map_reference_urn_of_draw (bf bt : gmap str str) (n : nat) :
  map_reference (urn_of_draw n) bf bt = Some (urn_of_draw n).
Proof.
  unfold map_reference. rewrite sanitize_urn_of_draw.
  unfold urn_of_draw, to_urn. by rewrite (startswith_app URN_PREFIX).
Qed.

Lemma resolve_urn_of_draw (bf bt : gmap str str) (n : nat) :
  resolve bf bt (urn_of_draw n) = urn_of_draw n.
Proof. unfold resolve. by rewrite map_reference_urn_of_draw. Qed.

(** ** The identity assignment pass *)

Lemma collect_entry_inv (e e' : json) (m m1 : lookups) (st st1 : nat) :
  collect_entry e m st = Some (e', m1, st1) ->
  exists ed,
    e = JObj ed
    /\ is_Some (resource_of ed)
    /\ st1 = S st
    /\ e' = JObj (dict_setdefault K_generated_uuid (JStr (gen_uuid st).1) ed)
    /\ by_typeid_str m1
       = match entry_key e with
         | Some k => <[k := urn_of_draw st]> (by_typeid_str m)
         | None => by_typeid_str m
         end
    /\ by_fullurl m1
       = match entry_locator e with
         | Some c => <[c := urn_of_draw st]> (by_fullurl m)
         | None => by_fullurl m
         end.
Proof.
  destruct e as [| | | | | |ed]; try done.
  unfold collect_entry, entry_key, entry_locator, resource_of, urn_of_draw.
  intros H. exists ed. split; [done|].
  destruct (dict_get K_resource ed) as [[| | | | | |rd]|] eqn:Hres;
    try done; simpl in H.
  - split; [by eexists|].
    destruct (truthy (dict_get_or_null K_resourceType rd)) eqn:Ht.
    + destruct (dict_get_or_null K_id rd) eqn:Hid;
        try (injection H as <- <- <-; repeat split;
             by destruct (dict_get K_fullUrl ed) as [[]|]).
      destruct (hashable (dict_get_or_null K_resourceType rd)); [|done].
      simpl in H. injection H as <- <- <-. repeat split.
      by destruct (dict_get K_fullUrl ed) as [[]|].
    + simpl in H. injection H as <- <- <-. repeat split.
      by destruct (dict_get K_fullUrl ed) as [[]|].
  - split; [by eexists|]. injection H as <- <- <-. repeat split.
    by destruct (dict_get K_fullUrl ed) as [[]|].
Qed.

Lemma collect_entries_inv (es : list json) :
  forall es' m m' st st',
    collect_entries es m st = Some (es', m', st') ->
    st' = (st + length es)%nat
    /\ forall i e, es !! i = Some e ->
       exists ed,
         e = JObj ed
         /\ is_Some (resource_of ed)
         /\ es' !! i
            = Some (JObj (dict_setdefault K_generated_uuid
                            (JStr (gen_uuid (st + i)).1) ed)).
Proof.
  induction es as [|e r IH]; intros es' m m' st st' H; simpl in H.
  - injection H as <- <- <-. split; [simpl; lia|done].
  - destruct (collect_entry e m st) as [[[e1 m1] st1]|] eqn:He; [|done].
    simpl in H.
    destruct (collect_entries r m1 st1) as [[[r1 m2] st2]|] eqn:Hr; [|done].
    simpl in H. injection H as <- <- <-.
    apply collect_entry_inv in He as (ed & -> & Hres & -> & -> & _).
    apply IH in Hr as [-> Hr]. split; [simpl; lia|].
    intros [|i] e0 Hi; simpl in Hi.
    + injection Hi as <-. exists ed. by rewrite Nat.add_0_r.
    + destruct (Hr i e0 Hi) as (ed0 & -> & Hres0 & Hi').
      exists ed0. split; [done|]. split; [done|].
      simpl. by replace (st + S i)%nat with (S st + i)%nat by lia.
Qed.

(** The entries are registered in order, so the last entry that registers a
    key decides what the index holds for it.  The argument is the same for
    the index by prior locator and for the one by [ResourceType/id]. *)
Section index.
Variable field : lookups -> gmap str str.
Variable key : json -> option str.
Hypothesis field_step :
  forall e e' m m1 st st1,
    collect_entry e m st = Some (e', m1, st1) ->
    field m1
    = match key e with
      | Some k => <[k := urn_of_draw st]> (field m)
      | None => field m
      end.

Lemma collect_entries_index_none (k : str) (es : list json) :
  forall es' m m' st st',
    collect_entries es m st = Some (es', m', st') ->
    (forall e, e ∈ es -> key e <> Some k) ->
    field m' !! k = field m !! k.
Proof.
  induction es as [|e r IH]; intros es' m m' st st' H Hno; simpl in H.
  - by injection H as <- <- <-.
  - destruct (collect_entry e m st) as [[[e1 m1] st1]|] eqn:He; [|done].
    simpl in H.
    destruct (collect_entries r m1 st1) as [[[r1 m2] st2]|] eqn:Hr; [|done].
    simpl in H. injection H as <- <- <-.
    rewrite (IH _ _ _ _ _ Hr) by (intros e0 He0; apply Hno; by right).
    rewrite (field_step _ _ _ _ _ _ He).
    assert (Hk : key e <> Some k) by (apply Hno; by left).
    destruct (key e) as [k0|]; [|done].
    rewrite lookup_insert_ne; [done|congruence].
Qed.

Lemma collect_entries_index_last (k : str) (es : list json) :
  forall es' m m' st st' j e,
    collect_entries es m st = Some (es', m', st') ->
    es !! j = Some e ->
    key e = Some k ->
    (forall j' e', (j < j')%nat -> es !! j' = Some e' -> key e' <> Some k) ->
    field m' !! k = Some (urn_of_draw (st + j)).
Proof.
  induction es as [|e0 r IH]; intros es' m m' st st' j e H Hj Hk Hlast;
    [done|]. simpl in H.
  destruct (collect_entry e0 m st) as [[[e1 m1] st1]|] eqn:He; [|done].
  simpl in H.
  destruct (collect_entries r m1 st1) as [[[r1 m2] st2]|] eqn:Hr; [|done].
  simpl in H. injection H as <- <- <-.
  pose proof (field_step _ _ _ _ _ _ He) as Hstep.
  apply collect_entry_inv in He as (ed & -> & _ & -> & _).
  destruct j as [|j]; simpl in Hj.
  - injection Hj as <-. rewrite Nat.add_0_r.
    rewrite (collect_entries_index_none k r _ _ _ _ _ Hr).
    + rewrite Hstep, Hk. apply lookup_insert_eq.
    + intros e' [j' Hj']%list_elem_of_lookup.
      apply (Hlast (S j') e'); [lia|done].
  - replace (st + S j)%nat with (S st + j)%nat by lia.
    apply (IH _ _ _ _ _ _ _ Hr Hj Hk).
    intros j' e' Hlt Hj'. apply (Hlast (S j') e'); [lia|done].
Qed.

(** Among the entries that register a key there is a last one. *)
Lemma last_registering (k : str) (es : list json) :
  (exists j e, es !! j = Some e /\ key e = Some k) ->
  exists j e,
    es !! j = Some e /\ key e = Some k
    /\ forall j' e', (j < j')%nat -> es !! j' = Some e' -> key e' <> Some k.
Proof.
  induction es as [|e0 r IH]; intros (j & e & Hj & Hk); [done|].
  destruct (decide (Exists (fun e => key e = Some k) r)) as [Hex|Hno].
  - apply Exists_exists in Hex as (e1 & [j1 Hj1]%list_elem_of_lookup & Hk1).
    destruct IH as (j2 & e2 & Hj2 & Hk2 & Hlast2); [by eauto|].
    exists (S j2), e2. repeat split; [done..|].
    intros [|j'] e' Hlt Hj'; [lia|]. apply (Hlast2 j' e'); [lia|done].
  - destruct j as [|j]; simpl in Hj.
    + assert (e = e0) as -> by congruence.
      exists 0%nat, e0. repeat split; [done..|].
      intros [|j'] e' Hlt Hj'; [lia|]. intros Hk'. apply Hno.
      apply Exists_exists. exists e'. split; [|done].
      apply list_elem_of_lookup. by exists j'.
    + destruct Hno. apply Exists_exists. exists e. split; [|done].
      apply list_elem_of_lookup. by exists j.
Qed.

Lemma collect_entries_index_some (k u : str) (es : list json) :
  forall es' m m' st st',
    collect_entries es m st = Some (es', m', st') ->
    field m' !! k = Some u ->
    field m !! k = Some u
    \/ exists j e, es !! j = Some e /\ key e = Some k.
Proof.
  intros es' m m' st st' H Hu.
  destruct (decide (Exists (fun e => key e = Some k) es)) as [Hex|Hno].
  - right. apply Exists_exists in Hex as (e & [j Hj]%list_elem_of_lookup & Hk).
    by exists j, e.
  - left. rewrite <- Hu. symmetry.
    apply (collect_entries_index_none k es _ _ _ _ _ H).
    intros e He Hk. apply Hno. apply Exists_exists. by exists e.
Qed.

End index.

Lemma typeid_step (e e' : json) (m m1 : lookups) (st st1 : nat) :
  collect_entry e m st = Some (e', m1, st1) ->
  by_typeid_str m1
  = match entry_key e with
    | Some k => <[k := urn_of_draw st]> (by_typeid_str m)
    | None => by_typeid_str m
    end.
Proof. intros H. by apply collect_entry_inv in H as (? & _ & _ & _ & _ & ? & _). Qed.

Lemma fullurl_step (e e' : json) (m m1 : lookups) (st st1 : nat) :
  collect_entry e m st = Some (e', m1, st1) ->
  by_fullurl m1
  = match entry_locator e with
    | Some k => <[k := urn_of_draw st]> (by_fullurl m)
    | None => by_fullurl m
    end.
Proof. intros H. by apply collect_entry_inv in H as (? & _ & _ & _ & _ & _ & ?). Qed.

(** ** The second loop of [transform_bundle] *)

Lemma process_entry_inv (e e' : json) (bf bt : gmap str str)
    (u u' : gset str) (st st' : nat) :
  process_entry e bf bt u st = Some (e', u', st') ->
  exists ed ed3 rd,
    let nu := (entry_uuid ed st).1 in
    let rd2 := add_identifier (dict_set K_id nu rd) (to_urn nu) in
    e = JObj ed /\ e' = JObj ed3
    /\ resource_of ed = Some rd
    /\ st' = (entry_uuid ed st).2
    /\ u' = (rewrite_references (JObj rd2) bf bt u).2
    /\ dict_get K_generated_uuid ed3 = None
    /\ dict_get K_fullUrl ed3 = Some (JStr (to_urn nu))
    /\ (forall k, k <> K_fullUrl -> k <> K_generated_uuid -> k <> K_resource ->
        dict_get k ed3 = dict_get k ed)
    /\ dict_get K_resource ed3
       = match dict_get K_resource ed with
         | Some _ => Some (rewrite_json bf bt (JObj rd2))
         | None => None
         end.
Proof.
  destruct e as [| | | | | |ed]; try done. unfold process_entry.
  destruct (resource_of ed) as [rd|] eqn:Hres; [|done].
  cbn [mbind option_bind].
  destruct (entry_uuid ed st) as [nu st1] eqn:Hnu.
  pose proof (rewrite_references_fst bf bt
    (JObj (add_identifier (dict_set K_id nu rd) (to_urn nu))) u) as Hfst.
  destruct (rewrite_references _ bf bt u) as [res' u1] eqn:Hrw.
  simpl in Hfst. subst res'.
  intros H. injection H as <- <- <-. eexists ed, _, rd. cbv zeta.
  rewrite Hnu. cbn [fst snd]. rewrite Hrw. cbn [fst snd].
  split; [done|]. split; [reflexivity|]. split; [done|]. split; [done|].
  split; [done|].
  set (rj := rewrite_json bf bt _).
  set (ed1 := dict_set K_fullUrl (JStr (to_urn nu)) ed).
  set (ed2 := match dict_get K_resource ed with
              | Some _ => dict_set K_resource rj ed1
              | None => ed1
              end).
  assert (Hdel : forall k, k <> K_generated_uuid ->
            dict_get k (match dict_get K_generated_uuid ed2 with
                        | Some _ => dict_del K_generated_uuid ed2
                        | None => ed2
                        end) = dict_get k ed2).
  { intros k Hk. destruct (dict_get K_generated_uuid ed2); [|done].
    by apply dict_get_del_ne. }
  split; [|split; [|split]].
  - destruct (dict_get K_generated_uuid ed2) eqn:E; [|done].
    apply dict_get_del_eq.
  - rewrite Hdel by done. unfold ed2.
    destruct (dict_get K_resource ed);
      [rewrite dict_get_set_ne by done|]; apply dict_get_set_eq.
  - intros k H1 H2 H3. rewrite Hdel by done. unfold ed2.
    destruct (dict_get K_resource ed);
      [rewrite dict_get_set_ne by done|]; by apply dict_get_set_ne.
  - rewrite Hdel by done. unfold ed2.
    destruct (dict_get K_resource ed) eqn:E; [apply dict_get_set_eq|].
    unfold ed1. by rewrite dict_get_set_ne.
Qed.

Lemma process_entries_inv (bf bt : gmap str str) (es : list json) :
  forall es' u u' st st',
    process_entries es bf bt u st = Some (es', u', st') ->
    Forall2 (fun e e' =>
               exists ui ui' sti sti',
                 process_entry e bf bt ui sti = Some (e', ui', sti'))
      es es'.
Proof.
  induction es as [|e r IH]; intros es' u u' st st' H; simpl in H.
  - injection H as <- <- <-. constructor.
  - destruct (process_entry e bf bt u st) as [[[e1 u1] st1]|] eqn:He; [|done].
    simpl in H.
    destruct (process_entries r bf bt u1 st1) as [[[r1 u2] st2]|] eqn:Hr;
      [|done].
    simpl in H. injection H as <- <- <-. constructor; [by eauto|].
    by eapply IH.
Qed.

(** ** Re-keying and the positions it keeps *)

Lemma add_identifier_get (k : str) (resource : dict) (urn_value : str) :
  k <> K_identifier ->
  dict_get k (add_identifier resource urn_value) = dict_get k resource.
Proof.
  intros Hk. unfold add_identifier.
  destruct (dict_get K_identifier resource) as [[| | | | |l|o]|];
    try by apply dict_get_set_ne.
  destruct (existsb _ l); [done|]. by apply dict_get_set_ne.
Qed.

Lemma add_identifier_list (resource : dict) (urn_value : str) (l : list json) :
  dict_get K_identifier resource = Some (JArr l) ->
  exists l',
    dict_get K_identifier (add_identifier resource urn_value) = Some (JArr l')
    /\ l `prefix_of` l'.
Proof.
  intros Hl. unfold add_identifier. rewrite Hl.
  destruct (existsb (same_ident urn_value) l).
  - exists l. by rewrite Hl.
  - exists (l ++ [urn_ident urn_value]). rewrite dict_get_set_eq.
    split; [done|]. by apply prefix_app_r.
Qed.

Lemma rekeyed_record (rd : dict) (nu : json) (urn_value : str) :
  rekeyed rd (add_identifier (dict_set K_id nu rd) urn_value).
Proof.
  split.
  - intros k H1 H2. rewrite add_identifier_get by done.
    by apply dict_get_set_ne.
  - intros l Hl. apply add_identifier_list.
    by rewrite dict_get_set_ne.
Qed.

Lemma rekeyed_bundle (bundle : dict) (u : str) :
  rekeyed bundle (rekey_bundle bundle u).
Proof.
  unfold rekey_bundle. split.
  - intros k H1 H2.
    destruct (dict_get K_identifier _) as [[| | | | |l|o]|];
      rewrite !dict_get_set_ne; done.
  - intros l Hl. rewrite dict_get_set_ne, Hl by done.
    eexists. rewrite dict_get_set_eq. split; [done|]. by apply prefix_app_r.
Qed.

Lemma rekeyed_get_path (d d' : dict) (p : list step) (x : json) :
  rekeyed d d' ->
  kept_in_record p = true ->
  get_path (JObj d) p = Some x ->
  get_path (JObj d') p = Some x.
Proof.
  intros [Hk Hl] Hp Hx. destruct p as [|[k|i] r]; try done.
  simpl in Hp, Hx |- *.
  destruct (decide (k = K_id)); [done|].
  destruct (decide (k = K_identifier)) as [->|Hne].
  - destruct r as [|[k'|i] r]; try done.
    destruct (dict_get K_identifier d) as [[| | | | |l|o]|] eqn:Hd; try done.
    destruct (Hl l eq_refl) as (l' & -> & Hpre). simpl in Hx |- *.
    destruct (l !! i) as [y|] eqn:Hy; [|done].
    by rewrite (prefix_lookup_Some _ _ _ _ Hy Hpre).
  - by rewrite Hk.
Qed.

(** ** The bundle before the final pass *)

Lemma set_entries_get (k : str) (b : dict) (es : list json) :
  k <> K_entry -> dict_get k (set_entries b es) = dict_get k b.
Proof.
  intros Hk. unfold set_entries.
  destruct (dict_get K_entry b) as [[| | | | |l|o]|]; try done.
  by apply dict_get_set_ne.
Qed.

Lemma set_entries_entry (b : dict) (es : list json) :
  dict_get K_entry (set_entries b es)
  = match dict_get K_entry b with
    | Some (JArr _) => Some (JArr es)
    | o => o
    end.
Proof.
  unfold set_entries.
  destruct (dict_get K_entry b) as [[| | | | |l|o]|] eqn:E; try done.
  apply dict_get_set_eq.
Qed.

Lemma collect_entries_nonlist (b : dict) (es0 es1 : list json)
    (m0 m : lookups) (st st1 : nat) :
  entries_of b = Some es0 ->
  collect_entries es0 m0 st = Some (es1, m, st1) ->
  (forall l, dict_get K_entry b <> Some (JArr l)) ->
  es0 = [] /\ es1 = [].
Proof.
  unfold entries_of. intros He Hc Hl.
  assert (Hs : forall s r, es0 <> JStr s :: r).
  { intros s r ->. done. }
  destruct (dict_get K_entry b) as [[| | | |s|l|o]|] eqn:E; try done.
  - injection He as <-. destruct s; [|by destruct (Hs [n] (((fun c => JStr [c]) <$> s)))].
    simpl in Hc. by injection Hc as <- <- <-.
  - by destruct (Hl l).
  - injection He as <-. destruct o as [|[k v] o];
      [|by destruct (Hs k ((fun kv => JStr kv.1) <$> o))].
    simpl in Hc. by injection Hc as <- <- <-.
  - injection He as <-. simpl in Hc. by injection Hc as <- <- <-.
Qed.

Lemma transform_state_inv (bundle : dict) (st st' : nat) (out : json)
    (unk : gset str) :
  transform_state bundle st = Some (out, unk, st') ->
  exists es0 es1 m st1 es' u2 b2,
    entries_of bundle = Some es0
    /\ collect_entries es0 (Lookups ∅ [] ∅) (S st) = Some (es1, m, st1)
    /\ process_entries es1 (by_fullurl m) (by_typeid_str m) ∅ st1
       = Some (es', u2, st')
    /\ rewrite_references (JObj b2) (by_fullurl m) (by_typeid_str m) u2
       = (out, unk)
    /\ (forall k, k <> K_entry ->
        dict_get k b2 = dict_get k (rekey_bundle bundle (gen_uuid st).1))
    /\ (forall l, dict_get K_entry bundle = Some (JArr l) ->
        es0 = l /\ dict_get K_entry b2 = Some (JArr es'))
    /\ ((forall l, dict_get K_entry bundle <> Some (JArr l)) ->
        dict_get K_entry b2 = dict_get K_entry bundle).
Proof.
  unfold transform_state, collect_uuid_map. cbn [gen_uuid fst].
  set (b0 := rekey_bundle bundle _).
  assert (Hent : dict_get K_entry b0 = dict_get K_entry bundle).
  { by apply (rekeyed_bundle bundle). }
  assert (Heo : entries_of b0 = entries_of bundle).
  { unfold entries_of. by rewrite Hent. }
  rewrite Heo.
  destruct (entries_of bundle) as [es0|] eqn:He0; [|done].
  cbn [mbind option_bind].
  destruct (collect_entries es0 _ (S st)) as [[[es1 m] st1]|] eqn:Hc; [|done].
  cbn [mbind option_bind].
  assert (He0' : entries_of b0 = Some es0) by congruence.
  assert (He1 : entries_of (set_entries b0 es1) = Some es1).
  { destruct (dict_get K_entry b0) as [[| | | |s|l|o]|] eqn:E;
      unfold entries_of; rewrite set_entries_entry, E; try done;
      destruct (collect_entries_nonlist b0 es0 es1 _ _ _ _ He0' Hc)
        as [-> ->]; try (intros ?; by rewrite E);
      unfold entries_of in He0'; by rewrite E in He0'. }
  rewrite He1. cbn [mbind option_bind].
  destruct (process_entries es1 _ _ ∅ st1) as [[[es' u2] st2]|] eqn:Hp;
    [|done].
  cbn [mbind option_bind].
  destruct (rewrite_references _ _ _ u2) as [b3 u3] eqn:Hrw.
  intros H. injection H as <- <- <-.
  exists es0, es1, m, st1, es', u2, (set_entries (set_entries b0 es1) es').
  split; [done|]. split; [done|]. split; [done|]. split; [done|].
  split; [|split].
  - intros k Hk. by rewrite !set_entries_get.
  - intros l Hl. rewrite <- Hent in Hl. rewrite !set_entries_entry, Hl.
    split; [|done]. unfold entries_of in He0'.
    rewrite Hl in He0'. by injection He0'.
  - intros Hl. rewrite !set_entries_entry, Hent.
    destruct (dict_get K_entry bundle) as [[| | | |s|l|o]|] eqn:E; try done.
    by destruct (Hl l).
Qed.

Lemma resource_of_setdefault (ed : dict) (v : json) :
  resource_of (dict_setdefault K_generated_uuid v ed) = resource_of ed.
Proof. unfold resource_of. by rewrite dict_get_setdefault_ne. Qed.

(** What the two loops make of the entry at index [i]. *)
Lemma entry_pipeline (es0 es1 es' : list json) (m0 m : lookups)
    (bf bt : gmap str str) (u0 u2 : gset str) (st st1 st2 : nat)
    (i : nat) (e : json) :
  collect_entries es0 m0 st = Some (es1, m, st1) ->
  process_entries es1 bf bt u0 st1 = Some (es', u2, st2) ->
  es0 !! i = Some e ->
  exists ed ed3 nu,
    e = JObj ed
    /\ es' !! i = Some (JObj ed3)
    /\ dict_get K_generated_uuid ed3 = None
    /\ dict_get K_fullUrl ed3 = Some (JStr (to_urn nu))
    /\ (dict_get K_generated_uuid ed = None ->
        nu = JStr (gen_uuid (st + i)).1)
    /\ (forall k, k <> K_fullUrl -> k <> K_generated_uuid -> k <> K_resource ->
        dict_get k ed3 = dict_get k ed)
    /\ (forall rd, dict_get K_resource ed = Some (JObj rd) ->
        dict_get K_resource ed3
        = Some (rewrite_json bf bt
                  (JObj (add_identifier (dict_set K_id nu rd) (to_urn nu))))).
Proof.
  intros Hc Hp Hi.
  apply collect_entries_inv in Hc as [_ Hc].
  destruct (Hc i e Hi) as (ed & -> & Hres & Hi1).
  apply process_entries_inv in Hp.
  destruct (Forall2_lookup_l _ _ _ _ _ Hp Hi1) as (e' & Hi' & Hpe).
  destruct Hpe as (ui & ui' & sti & sti' & Hpe).
  apply process_entry_inv in Hpe
    as (ed1 & ed3 & rd1 & [= <-] & -> & Hres1 & _ & _ & Hno & Hfu & Hk & Hr).
  set (ed1 := dict_setdefault K_generated_uuid _ ed) in *.
  exists ed, ed3, (entry_uuid ed1 sti).1.
  split; [done|]. split; [done|]. split; [done|]. split; [done|].
  split; [|split].
  - intros Hnone. unfold entry_uuid, ed1, dict_setdefault.
    rewrite Hnone, dict_get_set_eq. cbn [gen_uuid fst].
    by rewrite uuid_str_truthy.
  - intros k H1 H2 H3. rewrite Hk by done.
    by apply dict_get_setdefault_ne.
  - intros rd Hrd. rewrite Hr.
    unfold ed1 in Hres1.
    rewrite resource_of_setdefault in Hres1. unfold resource_of in Hres1.
    unfold ed1 at 1. rewrite dict_get_setdefault_ne by done.
    rewrite Hrd in Hres1 |- *. by injection Hres1 as <-.
Qed.

Lemma tagged_snoc (p : list step) : tagged (p ++ [Key K_reference]) = true.
Proof. unfold tagged. rewrite last_snoc. by apply bool_decide_eq_true_2. Qed.


(** A reference-tagged string at a kept position of the given bundle is,
    before the final pass, found at the same position: as it was, or, inside
    a record, as the record's own pass left it. *)
Lemma prefinal_path (bundle b2 : dict) (es0 es1 es' : list json)
    (m : lookups) (u2 : gset str) (st st1 st' : nat) (p : list step) (v : str) :
  let bf := by_fullurl m in
  let bt := by_typeid_str m in
  entries_of bundle = Some es0 ->
  collect_entries es0 (Lookups ∅ [] ∅) (S st) = Some (es1, m, st1) ->
  process_entries es1 bf bt ∅ st1 = Some (es', u2, st') ->
  (forall k, k <> K_entry ->
   dict_get k b2 = dict_get k (rekey_bundle bundle (gen_uuid st).1)) ->
  (forall l, dict_get K_entry bundle = Some (JArr l) ->
   es0 = l /\ dict_get K_entry b2 = Some (JArr es')) ->
  kept p = true ->
  tagged p = true ->
  get_path (JObj bundle) p = Some (JStr v) ->
  get_path (JObj b2) p = Some (JStr v)
  \/ get_path (JObj b2) p = Some (JStr (resolve bf bt v)).
Proof.
  intros bf bt He0 Hc Hp Hother Hentry Hkept Htag Hv.
  destruct p as [|[k|?] r]; try done. cbn [kept] in Hkept.
  destruct (decide (k = K_entry)) as [->|Hne].
  - destruct r as [|[?|i] [|[k2|?] r2]]; try done.
    cbn [get_path] in Hv |- *.
    destruct (dict_get K_entry bundle) as [[| | | | |l|o]|] eqn:El; try done.
    destruct (Hentry l eq_refl) as [-> ->].
    destruct (l !! i) as [e|] eqn:Hi; [|done].
    destruct (entry_pipeline _ _ _ _ _ _ _ _ _ _ _ _ i e Hc Hp Hi)
      as (ed & ed3 & nu & -> & -> & _ & _ & _ & Hk & Hr).
    cbn [get_path] in Hv |- *.
    destruct (decide (k2 = K_fullUrl)); [done|].
    destruct (decide (k2 = K_generated_uuid)); [done|].
    destruct (decide (k2 = K_resource)) as [->|Hne2].
    + destruct (dict_get K_resource ed) as [y|] eqn:Hy; [|done].
      destruct r2 as [|[k3|?] r3]; try done.
      destruct y as [| | | | | |rd]; try done.
      rewrite (Hr rd eq_refl). right.
      rewrite get_path_rewrite_json.
      rewrite (rekeyed_get_path rd _ _ (JStr v) (rekeyed_record rd nu _));
        [|done..].
      cbn [fmap option_fmap option_map]. unfold rewrite_at.
      assert (Ht : tagged (Key k3 :: r3) = true).
      { rewrite <- Htag. symmetry.
        by do 3 (rewrite tagged_cons by done). }
      by rewrite Ht.
    + left. by rewrite Hk.
  - left. cbn [get_path]. rewrite Hother by done.
    by apply (rekeyed_get_path bundle _ (Key k :: r) _
                (rekeyed_bundle bundle (gen_uuid st).1)).
Qed.

Lemma transform_bundle_state (bundle : dict) (st st' : nat) (out : json)
    (w : option str) :
  transform_bundle bundle st = Some (out, w, st') ->
  exists unk, transform_state bundle st = Some (out, unk, st') /\ w = warn unk.
Proof.
  unfold transform_bundle.
  destruct (transform_state bundle st) as [[[b unk] st1]|]; [|done].
  cbn [mbind option_bind]. intros H. injection H as <- <- <-. by exists unk.
Qed.

(** What the transform leaves at a kept reference-tagged position, in terms
    of the indices of the assignment pass. *)
Lemma transform_state_reference (bundle : dict) (st st' : nat) (out : json)
    (unk : gset str) :
  transform_state bundle st = Some (out, unk, st') ->
  exists es0 es1 m st1,
    entries_of bundle = Some es0
    /\ collect_entries es0 (Lookups ∅ [] ∅) (S st) = Some (es1, m, st1)
    /\ forall p v,
        kept (p ++ [Key K_reference]) = true ->
        ref_at (JObj bundle) p v ->
        (ref_at out p (resolve (by_fullurl m) (by_typeid_str m) v)
         \/ ref_at out p
              (resolve (by_fullurl m) (by_typeid_str m)
                 (resolve (by_fullurl m) (by_typeid_str m) v)))
        /\ (map_reference v (by_fullurl m) (by_typeid_str m) = None ->
            v ∈ unk).
Proof.
  intros H. apply transform_state_inv in H
    as (es0 & es1 & m & st1 & es' & u2 & b2 & He0 & Hc & Hp & Hrw
        & Hother & Hentry & _).
  exists es0, es1, m, st1. split; [done|]. split; [done|].
  intros p v Hkept Hv. unfold ref_at in *.
  pose proof (prefinal_path bundle b2 es0 es1 es' m u2 st st1 st' _ v
                He0 Hc Hp Hother Hentry Hkept (tagged_snoc p) Hv) as Hpre.
  pose proof (rewrite_references_fst (by_fullurl m) (by_typeid_str m)
                (JObj b2) u2) as Hout.
  rewrite Hrw in Hout. cbn [fst] in Hout. subst out.
  rewrite get_path_rewrite_json. split.
  - destruct Hpre as [-> | ->]; cbn [fmap option_fmap option_map];
      unfold rewrite_at; rewrite tagged_snoc; [by left|by right].
  - intros Hnone.
    replace unk with
      (rewrite_references (JObj b2) (by_fullurl m) (by_typeid_str m) u2).2
      by by rewrite Hrw.
    apply rewrite_references_unknown with p; [done|].
    unfold ref_at, resolve in *. rewrite Hnone in Hpre. by destruct Hpre.
Qed.




(** ** The forms of a cross-reference *)

Ltac bool_to_prop H :=
  rewrite ?orb_true_iff, ?andb_true_iff, ?N.leb_le, ?N.eqb_eq in H.

Lemma is_id_char_plain (x : N) :
  is_id_char x = true ->
  is_space x = false /\ is_quote x = false /\ x <> 58 /\ x <> 47.
Proof.
  intros H. unfold is_id_char, is_alnum, is_alpha in H. bool_to_prop H.
  repeat split.
  - apply not_true_is_false. intros Hs. unfold is_space in Hs.
    bool_to_prop Hs. lia.
  - apply not_true_is_false. intros Hs. unfold is_quote in Hs.
    bool_to_prop Hs. lia.
  - lia.
  - lia.
Qed.

Lemma is_alnum_id_char (x : N) : is_alnum x = true -> is_id_char x = true.
Proof. intros H. unfold is_id_char. by rewrite H. Qed.

Lemma is_alpha_alnum (x : N) : is_alpha x = true -> is_alnum x = true.
Proof. intros H. unfold is_alnum. by rewrite H. Qed.

Lemma span_app_stop (p : N -> bool) (a b : str) :
  Forall (fun x => p x = true) a ->
  (forall x, head b = Some x -> p x = false) ->
  span p (a ++ b) = (a, b).
Proof.
  intros Ha Hb. induction Ha as [|x a Hx _ IH]; simpl.
  - destruct b as [|y b]; [done|]. simpl. by rewrite (Hb y eq_refl).
  - by rewrite Hx, IH.
Qed.


Lemma segment_slash_form (seg rest : str) :
  seg <> [] -> Forall (fun x => x <> 47) seg ->
  segment_slash (seg ++ 47 :: rest) = Some rest.
Proof.
  intros Hne Hseg. unfold segment_slash.
  rewrite (span_app_stop not_slash seg (47 :: rest)).
  - by destruct seg.
  - eapply Forall_impl; [done|]. intros x Hx. unfold not_slash.
    apply negb_true_iff. by apply N.eqb_neq.
  - simpl. by intros ? [= <-].
Qed.

Lemma match_base_form (scheme host seg rest : str) :
  scheme = lit "http://" \/ scheme = lit "https://" ->
  host <> [] -> seg <> [] ->
  Forall (fun x => x <> 47) host -> Forall (fun x => x <> 47) seg ->
  match_base (scheme ++ host ++ 47 :: seg ++ 47 :: rest) = Some rest.
Proof.
  intros Hs Hh Hg Hhost Hseg.
  assert (H : match_base (scheme ++ host ++ 47 :: seg ++ 47 :: rest)
              = match segment_slash (host ++ 47 :: seg ++ 47 :: rest) with
                | Some r3 => segment_slash r3
                | None => None
                end).
  { by destruct Hs as [-> | ->]. }
  rewrite H, segment_slash_form by done. by apply segment_slash_form.
Qed.


Lemma match_base_no_colon (v : str) :
  Forall (fun x => x <> 58) v -> match_base v = None.
Proof.
  intros Hv. unfold match_base, strip_prefix.
  destruct (startswith v HTTP); [|done].
  set (r0 := drop _ v).
  assert (H0 : Forall (fun x => x <> 58) r0) by by apply Forall_drop.
  set (r1 := match r0 with 115 :: r => r | _ => r0 end).
  assert (H1 : Forall (fun x => x <> 58) r1).
  { unfold r1. destruct r0 as [|x r]; [done|].
    destruct (decide (x = 115)) as [->|Hx]; [by inversion H0|].
    destruct x as [|x]; [done|].
    repeat (destruct x as [x|x|]; try done). }
  destruct r1 as [|x r]; [done|].
  inversion H1 as [|? ? Hx _]; subst.
  unfold COLON_SLASHES. cbn [startswith].
  destruct (N.eqb_spec 58 x); [congruence|done].
Qed.

Lemma re_sub_ws_plain (v : str) :
  Forall (fun x => is_space x = false) v -> re_sub_ws v = v.
Proof.
  induction 1 as [|x v Hx _ IH]; [done|].
  by rewrite re_sub_ws_cons, Hx, IH.
Qed.


Lemma strip_plain (p : N -> bool) (v : str) :
  Forall (fun x => p x = false) v -> strip p v = v.
Proof.
  intros Hv. symmetry. apply trimmed_unique. exists [], [].
  rewrite app_nil_r. repeat split; [done..| |].
  - intros c Hc. destruct v; [done|]. injection Hc as <-. by inversion Hv.
  - intros c Hc%last_Some_elem_of. by eapply Forall_forall in Hv.
Qed.


(** ** The indices of a bundle *)

Lemma collect_uuid_map_inv (bundle b1 : dict) (m : lookups) (st st1 : nat) :
  collect_uuid_map bundle st = Some (m, b1, st1) ->
  exists es0 es1,
    entries_of bundle = Some es0
    /\ collect_entries es0 (Lookups ∅ [] ∅) st = Some (es1, m, st1).
Proof.
  unfold collect_uuid_map.
  destruct (entries_of bundle) as [es0|]; [|done]. cbn [mbind option_bind].
  destruct (collect_entries es0 _ st) as [[[es1 m1] st2]|] eqn:E; [|done].
  cbn [mbind option_bind]. intros H. injection H as <- <- <-.
  by exists es0, es1.
Qed.

Lemma entries_of_list (bundle : dict) (es es0 : list json) :
  dict_get K_entry bundle = Some (JArr es) ->
  entries_of bundle = Some es0 -> es0 = es.
Proof. unfold entries_of. intros ->. by intros [= ->]. Qed.



Lemma collect_entries_length (es es' : list json) (m m' : lookups)
    (st st' : nat) :
  collect_entries es m st = Some (es', m', st') -> length es' = length es.
Proof.
  revert es' m st. induction es as [|e r IH]; intros es' m st H; simpl in H.
  - by injection H as <- <- <-.
  - destruct (collect_entry e m st) as [[[e1 m1] st1]|] eqn:He; [|done].
    simpl in H.
    destruct (collect_entries r m1 st1) as [[[r1 m2] st2]|] eqn:Hr; [|done].
    simpl in H. injection H as <- <- <-. simpl. f_equal. by eapply IH.
Qed.

(** ** Where the transform leaves a field *)

Lemma collect_entry_ok (e : json) (m : lookups) (st : nat) :
  entry_ok e = true ->
  exists e' m1,
    collect_entry e m st = Some (e', m1, S st) /\ entry_ok e' = true.
Proof.
  destruct e as [| | | | | |ed]; try done. intros Hok.
  unfold entry_ok in Hok. unfold collect_entry.
  destruct (resource_of ed) as [rd|] eqn:Hres; [|done].
  cbn [mbind option_bind gen_uuid].
  assert (Hok' : forall v,
            entry_ok (JObj (dict_setdefault K_generated_uuid v ed)) = true).
  { intros v. unfold entry_ok. by rewrite resource_of_setdefault, Hres. }
  destruct (truthy (dict_get_or_null K_resourceType rd)) eqn:Ht;
    destruct (dict_get_or_null K_id rd) eqn:Hid;
    cbn [negb orb] in Hok; rewrite ?Hok; cbn [mbind option_bind];
    by eexists _, _.
Qed.

Lemma collect_entries_ok (es : list json) :
  Forall (fun e => entry_ok e = true) es ->
  forall m st,
    exists es' m' st',
      collect_entries es m st = Some (es', m', st')
      /\ Forall (fun e => entry_ok e = true) es'.
Proof.
  induction 1 as [|e r He _ IH]; intros m st; simpl.
  - by eexists _, _, _.
  - destruct (collect_entry_ok e m st He) as (e' & m1 & -> & He').
    cbn [mbind option_bind].
    destruct (IH m1 (S st)) as (r' & m' & st' & -> & Hr').
    cbn [mbind option_bind]. eexists _, _, _. split; [done|].
    by constructor.
Qed.

Lemma process_entries_ok (bf bt : gmap str str) (es : list json) :
  Forall (fun e => entry_ok e = true) es ->
  forall u st, is_Some (process_entries es bf bt u st).
Proof.
  induction 1 as [|e r He _ IH]; intros u st; simpl; [done|].
  assert (Hp : is_Some (process_entry e bf bt u st)).
  { destruct e as [| | | | | |ed]; try done.
    unfold entry_ok in He. unfold process_entry.
    destruct (resource_of ed) as [rd|]; [|done]. cbn [mbind option_bind].
    destruct (entry_uuid ed st) as [nu st1].
    by destruct (rewrite_references _ bf bt u). }
  destruct Hp as [[[e' u1] st1] ->]. cbn [mbind option_bind].
  destruct (IH u1 st1) as [[[r' u2] st2] ->]. by cbn [mbind option_bind].
Qed.

Lemma entries_of_set_entries (b : dict) (es0 es1 : list json)
    (m0 m : lookups) (st st1 : nat) :
  entries_of b = Some es0 ->
  collect_entries es0 m0 st = Some (es1, m, st1) ->
  entries_of (set_entries b es1) = Some es1.
Proof.
  intros He0 Hc.
  destruct (dict_get K_entry b) as [[| | | |s|l|o]|] eqn:E;
    unfold entries_of; rewrite set_entries_entry, E; try done;
    destruct (collect_entries_nonlist b es0 es1 _ _ _ _ He0 Hc)
      as [-> ->]; try (intros ?; by rewrite E);
    unfold entries_of in He0; by rewrite E in He0.
Qed.

Lemma collect_entries_index_value (field : lookups -> gmap str str)
    (key : json -> option str) (k u : str) (es es' : list json)
    (m m' : lookups) (st st' : nat) :
  (forall e e' m m1 st st1,
     collect_entry e m st = Some (e', m1, st1) ->
     field m1
     = match key e with
       | Some k => <[k := urn_of_draw st]> (field m)
       | None => field m
       end) ->
  collect_entries es m st = Some (es', m', st') ->
  field m' !! k = Some u ->
  field m !! k = Some u
  \/ exists j e,
       es !! j = Some e /\ key e = Some k
       /\ (forall j' e', (j < j')%nat -> es !! j' = Some e' ->
             key e' <> Some k)
       /\ u = urn_of_draw (st + j).
Proof.
  intros Hstep Hc Hu.
  destruct (collect_entries_index_some field key Hstep k u es _ _ _ _ _ Hc Hu)
    as [H|Hex]; [by left|right].
  apply (last_registering key) in Hex as (j & e & Hj & Hk & Hlast).
  exists j, e. split; [done|]. split; [done|]. split; [done|].
  rewrite (collect_entries_index_last field key Hstep k es _ _ _ _ _ j e
             Hc Hj Hk Hlast) in Hu.
  by injection Hu.
Qed.

Lemma warn_is_Some (unk : gset str) (v : str) : v ∈ unk -> is_Some (warn unk).
Proof.
  intros Hv. unfold warn. apply elem_of_elements in Hv.
  destruct (elements unk) as [|x l]; [by apply elem_of_nil in Hv|by eexists].
Qed.












(** ** The claims *)




(** C10. Whenever [transform_bundle] returns, no entry of the returned
    bundle has the key [_generated_uuid], whether the helper was stashed by
    the assignment pass or was already there in the given document. *)
Theorem generated_uuid_removed (bundle : dict) (st st' : nat) (out : json)
    (w : option str) (i : nat) (e : json) :
  transform_bundle bundle st = Some (out, w, st') ->
  get_path out [Key K_entry; Idx i] = Some e ->
  exists ed, e = JObj ed /\ dict_get K_generated_uuid ed = None.
Proof.
  intros Ht He. apply transform_bundle_state in Ht as (unk & Ht & _).
  apply transform_state_inv in Ht
    as (es0 & es1 & m & st1 & es' & u2 & b2 & He0 & Hc & Hp & Hrw
        & _ & Hentry & Hnolist).
  pose proof (rewrite_references_fst (by_fullurl m) (by_typeid_str m)
                (JObj b2) u2) as Hout.
  rewrite Hrw in Hout. cbn [fst] in Hout. subst out.
  rewrite get_path_rewrite_json in He. cbn [get_path] in He.
  assert (Hl : (exists l, dict_get K_entry bundle = Some (JArr l))
               \/ forall l, dict_get K_entry bundle <> Some (JArr l)).
  { destruct (dict_get K_entry bundle) as [[| | | | |l|o]|];
      (by left; eexists) || by right. }
  destruct Hl as [[l Hl]|Hn].
  2: { rewrite (Hnolist Hn) in He.
       destruct (dict_get K_entry bundle) as [[| | | | |l|o]|]; try done.
       by destruct (Hn l). }
  destruct (Hentry l Hl) as [-> Hb2]. rewrite Hb2 in He.
  destruct (es' !! i) as [e2|] eqn:Hi; [|done].
  destruct (lookup_lt_is_Some_2 l i) as [e0 Hi0].
  { rewrite <- (collect_entries_length _ _ _ _ _ _ Hc).
    apply process_entries_inv in Hp. apply Forall2_length in Hp.
    rewrite Hp. by apply lookup_lt_Some in Hi. }
  destruct (entry_pipeline _ _ _ _ _ _ _ _ _ _ _ _ i e0 Hc Hp Hi0)
    as (ed & ed3 & nu & -> & Hi' & Hno & _).
  rewrite Hi in Hi'. injection Hi' as ->.
  cbn [fmap option_fmap option_map] in He. injection He as <-.
  unfold rewrite_at. rewrite rewrite_json_obj. eexists. split; [done|].
  by rewrite dict_get_item_value, Hno.
Qed.

(** ** The run returns *)

Lemma collect_entry_some_ok (e e' : json) (m m1 : lookups) (st st1 : nat) :
  collect_entry e m st = Some (e', m1, st1) -> entry_ok e = true.
Proof.
  destruct e as [| | | | | |ed]; try done. unfold entry_ok, collect_entry.
  destruct (resource_of ed) as [rd|]; [|done].
  cbn [mbind option_bind gen_uuid].
  destruct (truthy (dict_get_or_null K_resourceType rd));
    destruct (dict_get_or_null K_id rd); try done.
  by destruct (hashable _).
Qed.

Lemma collect_entries_some_ok (es : list json) :
  forall es' m m' st st',
    collect_entries es m st = Some (es', m', st') ->
    Forall (fun e => entry_ok e = true) es.
Proof.
  induction es as [|e r IH]; intros es' m m' st st' H; [done|]. simpl in H.
  destruct (collect_entry e m st) as [[[e1 m1] st1]|] eqn:He; [|done].
  simpl in H.
  destruct (collect_entries r m1 st1) as [[[r1 m2] st2]|] eqn:Hr; [|done].
  constructor; [by eapply collect_entry_some_ok|by eapply IH].
Qed.

(** X1. [transform_bundle] returns exactly on the bundles whose [entry] can
    be iterated and whose entries are all dicts with a [resource] that is
    absent or a dict, and with a [resourceType] that can be hashed when it
    gets registered; on every other bundle it raises. *)
Theorem transform_bundle_returns_iff (bundle : dict) (st : nat) :
  is_Some (transform_bundle bundle st)
  <-> exists es,
        entries_of bundle = Some es
        /\ Forall (fun e => entry_ok e = true) es.
Proof.
  split.
  - intros [[[out w] st'] H].
    apply transform_bundle_state in H as (unk & H & _).
    apply transform_state_inv in H
      as (es0 & es1 & m & st1 & es' & u2 & b2 & He0 & Hc & _).
    exists es0. split; [done|]. by eapply collect_entries_some_ok.
  - intros (es & He & Hok).
    unfold transform_bundle, transform_state, collect_uuid_map.
    cbn [gen_uuid fst].
    assert (He0 : entries_of (rekey_bundle bundle
                    (uuid_str (uuid4_int (entropy st)))) = Some es).
    { rewrite <- He. unfold entries_of.
      by rewrite (proj1 (rekeyed_bundle bundle _) K_entry). }
    rewrite He0. cbn [mbind option_bind].
    destruct (collect_entries_ok es Hok (Lookups ∅ [] ∅) (S st))
      as (es1 & m & st1 & Hc & Hok1).
    rewrite Hc. cbn [mbind option_bind].
    rewrite (entries_of_set_entries _ _ _ _ _ _ _ He0 Hc).
    cbn [mbind option_bind].
    destruct (process_entries_ok (by_fullurl m) (by_typeid_str m) es1 Hok1
                ∅ st1) as [[[es' u2] st2] ->].
    cbn [mbind option_bind].
    by destruct (rewrite_references _ _ _ u2).
Qed.

(** A value that starts with [urn:uuid:] or [#] and ends with neither
    whitespace nor a quote character is left as it is. *)
Lemma resolve_passthrough_clean (bf bt : gmap str str) (v : str) :
  startswith v URN_PREFIX || startswith v HASH = true ->
  (forall c, last v = Some c -> is_space c = false /\ is_quote c = false) ->
  resolve bf bt v = v.
Proof.
  intros Hst Hlast.
  destruct (sanitize_passthrough v Hst) as [Hsan Hst'].
  assert (Hhead : forall c, head v = Some c ->
                    is_space c = false /\ is_quote c = false).
  { apply orb_true_iff in Hst as [[b ->]%startswith_split
                                 |[b ->]%startswith_split];
      by intros c [= <-]. }
  assert (Hstrip : forall p,
            (forall c, head v = Some c -> p c = false) ->
            (forall c, last v = Some c -> p c = false) ->
            strip p v = v).
  { intros p H1 H2. symmetry. apply trimmed_unique. exists [], [].
    rewrite app_nil_r. by repeat split. }
  rewrite (Hstrip is_space), (Hstrip is_quote) in Hsan;
    try (intros c Hc; by (apply Hhead in Hc as [? ?])
                      || by (apply Hlast in Hc as [? ?])).
  unfold resolve, map_reference. by rewrite Hst', Hsan.
Qed.

(** ** Re-keying, seen in the returned bundle *)

Lemma rewrite_json_urn_ident (bf bt : gmap str str) (u : str) :
  rewrite_json bf bt (urn_ident u) = urn_ident u.
Proof. reflexivity. Qed.

Lemma rekey_bundle_id (bundle : dict) (u : str) :
  dict_get K_id (rekey_bundle bundle u) = Some (JStr u).
Proof.
  unfold rekey_bundle.
  destruct (dict_get K_identifier _) as [[| | | | |l|o]|];
    rewrite dict_get_set_ne by done; apply dict_get_set_eq.
Qed.

Lemma transform_state_out (bundle : dict) (st st' : nat) (out : json)
    (unk : gset str) :
  transform_state bundle st = Some (out, unk, st') ->
  exists m b2 es',
    out = rewrite_json (by_fullurl m) (by_typeid_str m) (JObj b2)
    /\ (forall k, k <> K_entry ->
        dict_get k b2 = dict_get k (rekey_bundle bundle (gen_uuid st).1))
    /\ (forall l, dict_get K_entry b2 = Some (JArr l) ->
        l = es'
        /\ exists es1 st1 u2,
             process_entries es1 (by_fullurl m) (by_typeid_str m) ∅ st1
             = Some (es', u2, st')).
Proof.
  intros H. apply transform_state_inv in H
    as (es0 & es1 & m & st1 & es' & u2 & b2 & He0 & Hc & Hp & Hrw
        & Hother & Hentry & Hnolist).
  exists m, b2, es'. split; [|split; [done|]].
  - pose proof (rewrite_references_fst (by_fullurl m) (by_typeid_str m)
                  (JObj b2) u2) as Hout.
    by rewrite Hrw in Hout.
  - intros l Hl.
    assert (Hb : (exists l0, dict_get K_entry bundle = Some (JArr l0))
                 \/ forall l0, dict_get K_entry bundle <> Some (JArr l0)).
    { destruct (dict_get K_entry bundle) as [[| | | | |l0|o]|];
        (by left; eexists) || by right. }
    destruct Hb as [[l0 Hl0]|Hn].
    + destruct (Hentry l0 Hl0) as [_ Hb2]. rewrite Hb2 in Hl.
      injection Hl as <-. split; [done|]. by exists es1, st1, u2.
    + rewrite (Hnolist Hn) in Hl. by destruct (Hn l).
Qed.

(** X2. In the returned bundle, [id] is the first identifier drawn, and
    [identifier] carries the entry [{system, value}] of its canonical
    encoding: as the field itself when the bundle had none, as the second
    element after a single object, as a new last element of a sequence
    (appended without the duplicate test of [add_identifier]), and as the
    only element in place of any other value. *)
Theorem bundle_rekeyed (bundle : dict) (st st' : nat) (out : json)
    (w : option str) :
  transform_bundle bundle st = Some (out, w, st') ->
  let ident := urn_ident (urn_of_draw st) in
  get_path out [Key K_id] = Some (JStr (gen_uuid st).1)
  /\ (dict_get K_identifier bundle = None ->
      get_path out [Key K_identifier] = Some ident)
  /\ (forall o, dict_get K_identifier bundle = Some (JObj o) ->
      get_path out [Key K_identifier; Idx 1] = Some ident
      /\ get_path out [Key K_identifier; Idx 2] = None)
  /\ (forall l, dict_get K_identifier bundle = Some (JArr l) ->
      get_path out [Key K_identifier; Idx (length l)] = Some ident
      /\ get_path out [Key K_identifier; Idx (S (length l))] = None)
  /\ (forall x, dict_get K_identifier bundle = Some x ->
      (forall l, x <> JArr l) -> (forall o, x <> JObj o) ->
      get_path out [Key K_identifier] = Some (JArr [ident])).
Proof.
  intros Ht ident. apply transform_bundle_state in Ht as (unk & Ht & _).
  apply transform_state_out in Ht as (m & b2 & es' & -> & Hother & _).
  assert (Hid : dict_get K_identifier (dict_set K_id
                  (JStr (gen_uuid st).1) bundle)
                = dict_get K_identifier bundle)
    by by apply dict_get_set_ne.
  split; [|split; [|split; [|split]]].
  - rewrite get_path_rewrite_json. cbn [get_path].
    by rewrite Hother, rekey_bundle_id.
  - intros Hnone. rewrite get_path_rewrite_json. cbn [get_path].
    rewrite Hother by done. unfold rekey_bundle.
    rewrite Hid, Hnone, dict_get_set_eq. reflexivity.
  - intros o Ho. rewrite !get_path_rewrite_json. cbn [get_path].
    rewrite Hother by done. unfold rekey_bundle.
    rewrite Hid, Ho, dict_get_set_eq. split; reflexivity.
  - intros l Hl. rewrite !get_path_rewrite_json. cbn [get_path].
    rewrite Hother by done. unfold rekey_bundle.
    rewrite Hid, Hl, dict_get_set_eq.
    rewrite (lookup_ge_None_2 (l ++ [_]) (S (length l)))
      by (rewrite length_app; simpl; lia).
    rewrite (lookup_app_r l) by lia. rewrite Nat.sub_diag.
    split; reflexivity.
  - intros x Hx Hl Ho. rewrite get_path_rewrite_json. cbn [get_path].
    rewrite Hother by done. unfold rekey_bundle. rewrite Hid, Hx.
    destruct x; try (rewrite dict_get_set_eq; reflexivity).
    + by destruct (Hl l).
    + by destruct (Ho d).
Qed.

Lemma rewrite_json_shape (bf bt : gmap str str) (x : json) :
  match x with
  | JArr l => rewrite_json bf bt x = JArr (rewrite_json bf bt <$> l)
  | JObj d =>
      rewrite_json bf bt x
      = JObj ((fun kv => (kv.1, item_value bf bt kv.1 kv.2)) <$> d)
  | _ => rewrite_json bf bt x = x
  end.
Proof.
  destruct x; try reflexivity; [apply rewrite_json_arr|apply rewrite_json_obj].
Qed.

Lemma item_value_str_inv (bf bt : gmap str str) (k : str) (x : json) (s : str) :
  k <> K_reference -> item_value bf bt k x = JStr s -> x = JStr s.
Proof.
  intros Hk. unfold item_value. pose proof (rewrite_json_shape bf bt x) as Hx.
  destruct x; try (rewrite Hx; done).
  by rewrite decide_False.
Qed.

Lemma eq_str_item_value (bf bt : gmap str str) (k : str) (o : option json)
    (s : str) :
  k <> K_reference -> eq_str (item_value bf bt k <$> o) s = eq_str o s.
Proof.
  intros Hk. destruct o as [x|]; [|done]. simpl.
  unfold item_value. pose proof (rewrite_json_shape bf bt x) as Hx.
  destruct x; try (rewrite Hx; done).
  by rewrite decide_False.
Qed.

Lemma same_ident_rewrite_json (bf bt : gmap str str) (u : str) (x : json) :
  same_ident u (rewrite_json bf bt x) = same_ident u x.
Proof.
  pose proof (rewrite_json_shape bf bt x) as Hx.
  destruct x; try (rewrite Hx; done).
  rewrite Hx. unfold same_ident.
  by rewrite !dict_get_item_value, !eq_str_item_value.
Qed.

Lemma existsb_same_ident_rewrite (bf bt : gmap str str) (u : str)
    (l : list json) :
  existsb (same_ident u) (rewrite_json bf bt <$> l)
  = existsb (same_ident u) l.
Proof.
  induction l as [|x l IH]; [done|].
  rewrite fmap_cons. cbn [existsb]. by rewrite same_ident_rewrite_json, IH.
Qed.

(** X3. Every entry of the returned bundle is consistent with itself: its
    [fullUrl] starts with [urn:uuid:]; and when it has a record, the record
    has an [id], the [fullUrl] is [urn:uuid:] followed by that [id] whenever
    the [id] is a string, and the record's [identifier] is a sequence with an
    element whose [system] is [urn:ietf:rfc:3986] and whose [value] is the
    [fullUrl]. *)
Theorem entry_rekeyed (bundle : dict) (st st' : nat) (out : json)
    (w : option str) (i : nat) (e : json) :
  transform_bundle bundle st = Some (out, w, st') ->
  get_path out [Key K_entry; Idx i] = Some e ->
  exists ed u,
    e = JObj ed
    /\ dict_get K_fullUrl ed = Some (JStr u)
    /\ startswith u URN_PREFIX = true
    /\ forall res, dict_get K_resource ed = Some res ->
       exists rd l,
         res = JObj rd
         /\ is_Some (dict_get K_id rd)
         /\ (forall s, dict_get K_id rd = Some (JStr s) -> u = URN_PREFIX ++ s)
         /\ dict_get K_identifier rd = Some (JArr l)
         /\ existsb (same_ident u) l = true.
Proof.
  intros Ht He. apply transform_bundle_state in Ht as (unk & Ht & _).
  apply transform_state_out in Ht as (m & b2 & es' & -> & _ & Hent).
  set (bf := by_fullurl m) in *. set (bt := by_typeid_str m) in *.
  rewrite get_path_rewrite_json in He. cbn [get_path] in He.
  destruct (dict_get K_entry b2) as [[| | | | |l|o]|] eqn:Eb; try done.
  destruct (Hent l eq_refl) as [-> (es1 & st1 & u2 & Hp)].
  destruct (es' !! i) as [e2|] eqn:Hi; [|done].
  cbn [fmap option_fmap option_map] in He. injection He as <-.
  apply process_entries_inv in Hp.
  destruct (Forall2_lookup_r _ _ _ _ _ Hp Hi)
    as (e1 & _ & ui & ui' & sti & sti' & Hpe).
  apply process_entry_inv in Hpe
    as (ed1 & ed3 & rd1 & -> & -> & Hres & _ & _ & _ & Hfu & _ & Hr).
  set (nu := (entry_uuid ed1 sti).1) in *.
  set (rd2 := add_identifier (dict_set K_id nu rd1) (to_urn nu)) in *.
  unfold rewrite_at. rewrite rewrite_json_obj.
  eexists _, (to_urn nu). split; [reflexivity|].
  rewrite !dict_get_item_value, Hfu.
  split; [reflexivity|]. split; [apply startswith_app|].
  intros res Hrs. rewrite Hr in Hrs.
  destruct (dict_get K_resource ed1); [|done].
  cbn [fmap option_fmap option_map] in Hrs. injection Hrs as <-.
  assert (Hid : dict_get K_id rd2 = Some nu).
  { unfold rd2. rewrite add_identifier_get by done. apply dict_get_set_eq. }
  destruct (add_identifier_has (dict_set K_id nu rd1) (to_urn nu))
    as (l0 & Hl0 & Hex).
  fold rd2 in Hl0.
  rewrite rewrite_json_obj. unfold item_value at 1.
  rewrite rewrite_json_obj.
  eexists _, (rewrite_json bf bt <$> (rewrite_json bf bt <$> l0)).
  split; [reflexivity|].
  rewrite !dict_get_item_value.
  rewrite Hid, Hl0. cbn [fmap option_fmap option_map].
  split; [by eexists|]. split; [|split].
  - intros s [= Hs].
    apply item_value_str_inv in Hs; [|done].
    apply item_value_str_inv in Hs; [|done]. by rewrite Hs.
  - unfold item_value. rewrite rewrite_json_arr. by rewrite rewrite_json_arr.
  - by rewrite !existsb_same_ident_rewrite.
Qed.

(** ** Resolution, rule by rule *)

(** X4. The second rule of the matcher, end to end: a reference-tagged
    string at a kept position whose sanitized form starts neither with
    [urn:uuid:] nor with [#] and is the stripped prior [fullUrl] of the entry
    [j] (the last entry with that locator) is replaced by the canonical
    encoding of the identifier drawn for entry [j], whether or not it has
    the shape the pattern asks for. *)
Theorem reference_by_locator (bundle : dict) (st st' : nat) (out : json)
    (w : option str) (es : list json) (p : list step) (v : str)
    (j : nat) (e : json) :
  transform_bundle bundle st = Some (out, w, st') ->
  dict_get K_entry bundle = Some (JArr es) ->
  ref_at (JObj bundle) p v ->
  kept (p ++ [Key K_reference]) = true ->
  startswith (sanitize_ref_string v) URN_PREFIX
  || startswith (sanitize_ref_string v) HASH = false ->
  es !! j = Some e ->
  entry_locator e = Some (sanitize_ref_string v) ->
  (forall j' e', (j < j')%nat -> es !! j' = Some e' ->
     entry_locator e' <> Some (sanitize_ref_string v)) ->
  ref_at out p (urn_of_draw (S st + j)).
Proof.
  intros Ht Hes Hv Hkept Hpass Hj Hloc Hlast.
  apply transform_bundle_state in Ht as (unk & Ht & _).
  destruct (transform_state_reference _ _ _ _ _ Ht)
    as (es0 & es1 & m & st1 & He0 & Hc & Href).
  apply (entries_of_list _ _ _ Hes) in He0 as ->.
  destruct (Href p v Hkept Hv) as [Hout _].
  assert (Hm : map_reference v (by_fullurl m) (by_typeid_str m)
               = Some (urn_of_draw (S st + j))).
  { unfold map_reference. rewrite Hpass.
    by rewrite (collect_entries_index_last by_fullurl entry_locator
                  fullurl_step _ es _ _ _ _ _ j e Hc Hj Hloc Hlast). }
  unfold resolve in Hout. rewrite Hm in Hout.
  rewrite map_reference_urn_of_draw in Hout. by destruct Hout.
Qed.

Lemma rstrip_decomp (p : N -> bool) (s : str) :
  exists suf, s = rstrip p s ++ suf /\ Forall (fun c => p c = true) suf.
Proof.
  unfold rstrip.
  destruct (lstrip_decomp p (rev s)) as (pre & Hs & Hpre & _).
  exists (rev pre). split; [|by apply Forall_rev_iff].
  rewrite <- rev_app_distr, <- Hs. by rewrite rev_involutive.
Qed.

Lemma passthrough_trim (pre v : str) :
  pre <> [] ->
  Forall (fun c => is_space c = false) pre ->
  Forall (fun c => is_quote c = false) pre ->
  startswith v pre = true ->
  exists suf,
    v = strip is_quote (strip is_space v) ++ suf
    /\ Forall (fun c => is_space c = true \/ is_quote c = true) suf.
Proof.
  intros Hne Hs Hq [b ->]%startswith_split.
  rewrite !strip_keep_prefix by done.
  destruct (rstrip_decomp is_space b) as (suf1 & Hb1 & Hsuf1).
  destruct (rstrip_decomp is_quote (rstrip is_space b))
    as (suf2 & Hb2 & Hsuf2).
  exists (suf2 ++ suf1). split.
  - rewrite <- app_assoc. f_equal.
    rewrite app_assoc, <- Hb2. exact Hb1.
  - apply Forall_app. split.
    + eapply Forall_impl; [exact Hsuf2|]. by right.
    + eapply Forall_impl; [exact Hsuf1|]. by left.
Qed.

(** X5. A reference that starts with [urn:uuid:] or with [#] is never
    looked up: whatever the indices hold, even the very string as a prior
    locator, the matcher returns the value itself without the whitespace and
    quote characters at its end, which still starts with that prefix, and a
    pass leaves exactly that in the field. *)
Theorem passthrough_reference (bf bt : gmap str str) (v : str) :
  startswith v URN_PREFIX || startswith v HASH = true ->
  exists m suf,
    map_reference v bf bt = Some m
    /\ v = m ++ suf
    /\ Forall (fun c => is_space c = true \/ is_quote c = true) suf
    /\ startswith m URN_PREFIX || startswith m HASH = true
    /\ forall obj p unknown,
         ref_at obj p v ->
         ref_at (rewrite_references obj bf bt unknown).1 p m.
Proof.
  intros Hst. destruct (sanitize_passthrough v Hst) as [Hsan Hst'].
  assert (Hm : map_reference v bf bt = Some (sanitize_ref_string v)).
  { unfold map_reference. by rewrite Hst'. }
  assert (Htrim : exists suf,
            v = strip is_quote (strip is_space v) ++ suf
            /\ Forall (fun c => is_space c = true \/ is_quote c = true) suf).
  { apply orb_true_iff in Hst as [H|H].
    - by apply (passthrough_trim URN_PREFIX); [|apply URN_PREFIX_plain..|].
    - by apply (passthrough_trim HASH); [|apply HASH_plain..|]. }
  destruct Htrim as (suf & Hv & Hsuf).
  exists (sanitize_ref_string v), suf.
  split; [done|]. split; [by rewrite Hsan|]. split; [done|]. split; [done|].
  intros obj p unknown Hp. unfold ref_at in *.
  rewrite rewrite_references_fst, get_path_rewrite_json, Hp.
  cbn [fmap option_fmap option_map]. unfold rewrite_at, resolve.
  by rewrite tagged_snoc, Hm.
Qed.

(** Where a value returned by the matcher comes from, with the indices the
    assignment pass builds from the entries [es]. *)
Lemma map_reference_cases (es es1 : list json) (m : lookups) (st st1 : nat)
    (v r : str) :
  collect_entries es (Lookups ∅ [] ∅) st = Some (es1, m, st1) ->
  map_reference v (by_fullurl m) (by_typeid_str m) = Some r ->
  (r = sanitize_ref_string v
   /\ startswith r URN_PREFIX || startswith r HASH = true)
  \/ exists j e,
       es !! j = Some e
       /\ r = urn_of_draw (st + j)
       /\ (entry_locator e = Some (sanitize_ref_string v)
           \/ exists kind id,
                REF_RE (sanitize_ref_string v) = Some (kind, id)
                /\ entry_key e = Some (kind ++ 47 :: id)).
Proof.
  intros Hc Hr. unfold map_reference in Hr.
  destruct (startswith (sanitize_ref_string v) URN_PREFIX
            || startswith (sanitize_ref_string v) HASH) eqn:Hst.
  - injection Hr as <-. by left.
  - right.
    destruct (by_fullurl m !! sanitize_ref_string v) as [u|] eqn:Hbf.
    + injection Hr as ->.
      destruct (collect_entries_index_value by_fullurl entry_locator _ _ _ _
                  _ _ _ _ fullurl_step Hc Hbf)
        as [H|(j & e & Hj & Hk & _ & ->)]; [done|].
      exists j, e. split; [done|]. split; [done|]. by left.
    + destruct (REF_RE (sanitize_ref_string v)) as [[kind id]|] eqn:Hre;
        [|done].
      destruct (collect_entries_index_value by_typeid_str entry_key _ _ _ _
                  _ _ _ _ typeid_step Hc Hr)
        as [H|(j & e & Hj & Hk & _ & ->)]; [done|].
      exists j, e. split; [done|]. split; [done|]. right. by exists kind, id.
Qed.

(** X6. Whatever the matcher returns with the indices of a bundle is
    accounted for: it is the sanitized value itself, which then starts with
    [urn:uuid:] or [#]; or it is the canonical encoding of the identifier
    drawn for an entry of the bundle, one whose prior locator is the
    sanitized value or whose record registers the [Kind/id] the pattern
    reads in it. *)
Theorem map_reference_sound (bundle b1 : dict) (m : lookups) (st st1 : nat)
    (es : list json) (v r : str) :
  collect_uuid_map bundle st = Some (m, b1, st1) ->
  entries_of bundle = Some es ->
  map_reference v (by_fullurl m) (by_typeid_str m) = Some r ->
  (r = sanitize_ref_string v
   /\ startswith r URN_PREFIX || startswith r HASH = true)
  \/ exists j e,
       es !! j = Some e
       /\ r = urn_of_draw (st + j)
       /\ (entry_locator e = Some (sanitize_ref_string v)
           \/ exists kind id,
                REF_RE (sanitize_ref_string v) = Some (kind, id)
                /\ entry_key e = Some (kind ++ 47 :: id)).
Proof.
  intros Hc He Hr.
  apply collect_uuid_map_inv in Hc as (es0 & es1 & He0 & Hc).
  assert (es0 = es) as -> by congruence.
  by eapply map_reference_cases.
Qed.

(** X7. The indices the assignment pass returns, entry by entry: the pass
    draws one identifier per entry, and each index holds under a key exactly
    the canonical encoding of the identifier drawn for the last entry that
    registers the key (its stripped prior [fullUrl], or the [Kind/id] of its
    record); a key no entry registers is absent. *)
Theorem index_last_writer (bundle b1 : dict) (m : lookups) (st st1 : nat)
    (es : list json) (k u : str) :
  collect_uuid_map bundle st = Some (m, b1, st1) ->
  entries_of bundle = Some es ->
  let registered (key : json -> option str) :=
    exists j e,
      es !! j = Some e /\ key e = Some k
      /\ (forall j' e', (j < j')%nat -> es !! j' = Some e' ->
            key e' <> Some k)
      /\ u = urn_of_draw (st + j) in
  st1 = (st + length es)%nat
  /\ (by_fullurl m !! k = Some u <-> registered entry_locator)
  /\ (by_typeid_str m !! k = Some u <-> registered entry_key).
Proof.
  intros Hc He registered.
  apply collect_uuid_map_inv in Hc as (es0 & es1 & He0 & Hc).
  assert (es0 = es) as -> by congruence.
  split; [by apply collect_entries_inv in Hc as [-> _]|].
  split; split.
  - intros Hu.
    by destruct (collect_entries_index_value by_fullurl entry_locator _ _ _ _
                   _ _ _ _ fullurl_step Hc Hu) as [H|H].
  - intros (j & e & Hj & Hk & Hlast & ->).
    by apply (collect_entries_index_last by_fullurl entry_locator
                fullurl_step _ es _ _ _ _ _ j e Hc Hj Hk Hlast).
  - intros Hu.
    by destruct (collect_entries_index_value by_typeid_str entry_key _ _ _ _
                   _ _ _ _ typeid_step Hc Hu) as [H|H].
  - intros (j & e & Hj & Hk & Hlast & ->).
    by apply (collect_entries_index_last by_typeid_str entry_key
                typeid_step _ es _ _ _ _ _ j e Hc Hj Hk Hlast).
Qed.

(** ** What becomes of a reference *)

Lemma re_sub_ws_startswith (pre : str) :
  Forall (fun c => c <> 45) pre ->
  forall s, startswith (re_sub_ws s) pre = true -> startswith s pre = true.
Proof.
  induction 1 as [|a pre Ha _ IH]; intros s Hs; [done|].
  destruct s as [|c r]; [done|]. rewrite re_sub_ws_cons in Hs.
  destruct (is_space c).
  - cbn [startswith] in Hs. apply andb_true_iff in Hs as [Hs _].
    apply N.eqb_eq in Hs. by destruct Ha.
  - cbn [startswith] in Hs |- *. apply andb_true_iff in Hs as [-> Hs].
    by rewrite (IH _ Hs).
Qed.

Lemma strip_decomp (p : N -> bool) (s : str) :
  exists pre suf,
    s = pre ++ strip p s ++ suf
    /\ Forall (fun c => p c = true) pre
    /\ Forall (fun c => p c = true) suf.
Proof.
  destruct (trimmed_strip p s) as (pre & suf & Hs & Hpre & Hsuf & _).
  by exists pre, suf.
Qed.

(** A sanitized form that starts with [urn:uuid:] or [#] is the value
    without the whitespace and quote characters around it. *)
Lemma passthrough_decomp (v : str) :
  startswith (sanitize_ref_string v) URN_PREFIX
  || startswith (sanitize_ref_string v) HASH = true ->
  exists pre suf,
    v = pre ++ sanitize_ref_string v ++ suf
    /\ Forall (fun c => is_space c = true \/ is_quote c = true) pre
    /\ Forall (fun c => is_space c = true \/ is_quote c = true) suf.
Proof.
  intros Hst.
  assert (Hsan : sanitize_ref_string v = strip is_quote (strip is_space v)).
  { unfold sanitize_ref_string in Hst |- *.
    destruct (startswith (strip is_quote (strip is_space v)) URN_PREFIX
              || startswith (strip is_quote (strip is_space v)) HASH)
      eqn:E; [done|].
    apply orb_true_iff in Hst as [H|H];
      apply re_sub_ws_startswith in H; try (by repeat constructor);
      rewrite H in E; [done|by rewrite orb_true_r in E]. }
  rewrite Hsan.
  destruct (strip_decomp is_space v) as (p1 & s1 & H1 & Hp1 & Hs1).
  destruct (strip_decomp is_quote (strip is_space v))
    as (p2 & s2 & H2 & Hp2 & Hs2).
  exists (p1 ++ p2), (s2 ++ s1). split; [|split].
  - rewrite <- !app_assoc.
    rewrite (app_assoc _ s2 s1), (app_assoc p2), <- H2.
    by rewrite <- (app_assoc p2), <- H2 || exact H1.
  - apply Forall_app. split;
      (eapply Forall_impl; [eassumption|]); [by left|by right].
  - apply Forall_app. split;
      (eapply Forall_impl; [eassumption|]); [by right|by left].
Qed.

(** X8. What the transform makes of a reference, case by case.  A string
    stored under [reference] at a position the transform keeps ends in
    one of three ways: it is left as it was and a warning is
    printed; or it is cut down to a middle part of itself that starts with
    [urn:uuid:] or [#], what was cut around it being whitespace and quote
    characters only; or it is replaced by the canonical encoding of the
    identifier drawn for an entry of the bundle, one that has the sanitized
    value as its prior locator or whose record registers the [Kind/id] the
    pattern reads in it.  No other value is ever written. *)
Theorem reference_outcomes (bundle : dict) (st st' : nat) (out : json)
    (w : option str) (es : list json) (p : list step) (v : str) :
  transform_bundle bundle st = Some (out, w, st') ->
  entries_of bundle = Some es ->
  ref_at (JObj bundle) p v ->
  kept (p ++ [Key K_reference]) = true ->
  (ref_at out p v /\ is_Some w)
  \/ (exists pre r suf,
        ref_at out p r
        /\ v = pre ++ r ++ suf
        /\ Forall (fun c => is_space c = true \/ is_quote c = true) pre
        /\ Forall (fun c => is_space c = true \/ is_quote c = true) suf
        /\ startswith r URN_PREFIX || startswith r HASH = true)
  \/ (exists j e,
        es !! j = Some e
        /\ ref_at out p (urn_of_draw (S st + j))
        /\ (entry_locator e = Some (sanitize_ref_string v)
            \/ exists kind id,
                 REF_RE (sanitize_ref_string v) = Some (kind, id)
                 /\ entry_key e = Some (kind ++ 47 :: id))).
Proof.
  intros Ht He Hv Hkept.
  apply transform_bundle_state in Ht as (unk & Ht & ->).
  destruct (transform_state_reference _ _ _ _ _ Ht)
    as (es0 & es1 & m & st1 & He0 & Hc & Href).
  assert (es0 = es) as -> by congruence.
  destruct (Href p v Hkept Hv) as [Hout Hunk].
  set (bf := by_fullurl m) in *. set (bt := by_typeid_str m) in *.
  destruct (map_reference v bf bt) as [r|] eqn:Hm.
  - right.
    assert (Hres : resolve bf bt v = r) by (unfold resolve; by rewrite Hm).
    rewrite Hres in Hout.
    destruct (map_reference_cases _ _ _ _ _ _ _ Hc Hm)
      as [[-> Hpass]|(j & e & Hj & -> & Hor)].
    + left. destruct (passthrough_decomp v Hpass) as (p1 & s1 & H1 & Hp1 & Hs1).
      destruct Hout as [Hout|Hout].
      { by exists p1, (sanitize_ref_string v), s1. }
      destruct (sanitize_passthrough _ Hpass) as [_ Hpass2].
      assert (Hres2 : resolve bf bt (sanitize_ref_string v)
                      = sanitize_ref_string (sanitize_ref_string v)).
      { unfold resolve, map_reference. by rewrite Hpass2. }
      rewrite Hres2 in Hout.
      destruct (passthrough_decomp _ Hpass2) as (p2 & s2 & H2 & Hp2 & Hs2).
      exists (p1 ++ p2), (sanitize_ref_string (sanitize_ref_string v)),
        (s2 ++ s1).
      split; [done|]. split; [|split; [|split]].
      * rewrite <- !app_assoc.
        rewrite (app_assoc _ s2 s1), (app_assoc p2), <- H2. exact H1.
      * by apply Forall_app.
      * by apply Forall_app.
      * done.
    + right. exists j, e. split; [done|]. split; [|done].
      rewrite resolve_urn_of_draw in Hout. by destruct Hout.
  - left. unfold resolve in Hout. rewrite !Hm in Hout.
    split; [by destruct Hout|]. apply warn_is_Some with v. by apply Hunk.
Qed.
(** ** The pattern, read back *)

Lemma span_spec (p : N -> bool) (s a b : str) :
  span p s = (a, b) ->
  s = a ++ b
  /\ Forall (fun x => p x = true) a
  /\ (forall x, head b = Some x -> p x = false).
Proof.
  revert a b. induction s as [|c r IH]; intros a b H; simpl in H.
  - by injection H as <- <-.
  - destruct (p c) eqn:Hc.
    + destruct (span p r) as [a' b'] eqn:E. injection H as <- <-.
      destruct (IH a' b' eq_refl) as (-> & Ha & Hb).
      split; [done|]. split; [by constructor|done].
    + injection H as <- <-. split; [done|]. split; [done|].
      by intros x [= <-].
Qed.

Lemma segment_slash_inv (s rest : str) :
  segment_slash s = Some rest ->
  exists seg,
    seg <> [] /\ Forall (fun x => x <> 47) seg /\ s = seg ++ 47 :: rest.
Proof.
  unfold segment_slash. destruct (span not_slash s) as [a b] eqn:E.
  apply span_spec in E as (-> & Ha & _).
  destruct a as [|x a]; [done|]. destruct b as [|y b]; [done|].
  destruct (N.eqb_spec y 47) as [->|Hy].
  2: { destruct y as [|y]; [done|].
       repeat (destruct y as [y|y|]; try done). }
  intros [= <-]. exists (x :: a). split; [done|]. split; [|done].
  eapply Forall_impl; [exact Ha|]. intros z Hz ->. done.
Qed.

Lemma strip_prefix_inv (pre s r : str) :
  strip_prefix pre s = Some r -> s = pre ++ r.
Proof.
  unfold strip_prefix. destruct (startswith s pre) eqn:E; [|done].
  apply startswith_split in E as [b ->]. intros [= <-].
  by rewrite drop_app_length.
Qed.

Lemma match_base_inv (s rest : str) :
  match_base s = Some rest ->
  exists scheme host seg,
    (scheme = lit "http://" \/ scheme = lit "https://")
    /\ host <> [] /\ seg <> []
    /\ Forall (fun x => x <> 47) host
    /\ Forall (fun x => x <> 47) seg
    /\ s = scheme ++ host ++ 47 :: seg ++ 47 :: rest.
Proof.
  unfold match_base.
  destruct (strip_prefix HTTP s) as [r0|] eqn:E0; [|done].
  apply strip_prefix_inv in E0 as ->.
  set (r1 := match r0 with 115 :: r => r | _ => r0 end).
  destruct (strip_prefix COLON_SLASHES r1) as [r2|] eqn:E1; [|done].
  apply strip_prefix_inv in E1.
  destruct (segment_slash r2) as [r3|] eqn:E2; [|done].
  apply segment_slash_inv in E2 as (host & Hh & Hhost & ->).
  intros (seg & Hg & Hseg & ->)%segment_slash_inv.
  assert (Hs : HTTP ++ r0 = lit "http://" ++ host ++ 47 :: seg ++ 47 :: rest
               \/ HTTP ++ r0
                  = lit "https://" ++ host ++ 47 :: seg ++ 47 :: rest).
  { unfold r1 in E1. destruct r0 as [|x r]; [done|].
    destruct (N.eqb_spec x 115) as [->|Hx].
    - right. by rewrite E1.
    - left.
      assert (E1' : x :: r = COLON_SLASHES ++ host ++ 47 :: seg ++ 47 :: rest).
      { rewrite <- E1. destruct x as [|x]; [done|].
        repeat (destruct x as [x|x|]; try done). }
      by rewrite E1'. }
  destruct Hs as [Hs|Hs]; rewrite Hs; eexists _, host, seg;
    (split; [|done]); [by left|by right].
Qed.

Lemma match_kind_id_inv (s kind id : str) :
  match_kind_id s = Some (kind, id) ->
  exists nl,
    s = kind ++ 47 :: id ++ nl
    /\ (nl = [] \/ nl = [10])
    /\ kind_token kind /\ id_token id.
Proof.
  destruct s as [|c r]; [done|]. unfold match_kind_id.
  destruct (is_alpha c) eqn:Hc; [|done].
  destruct (span is_alnum r) as [a b] eqn:Ea.
  apply span_spec in Ea as (-> & Ha & _).
  destruct a as [|k ks]; [done|]. destruct b as [|y r2]; [done|].
  destruct (N.eqb_spec y 47) as [->|Hy].
  2: { destruct y as [|y]; [done|].
       repeat (destruct y as [y|y|]; try done). }
  destruct (span is_id_char r2) as [i r3] eqn:Ei.
  apply span_spec in Ei as (-> & Hi & _).
  destruct ((1 <=? length i)%nat && (length i <=? 64)%nat && at_dollar r3)
    eqn:Hb; [|done].
  apply andb_true_iff in Hb as [[H1%Nat.leb_le H2%Nat.leb_le]%andb_true_iff
                                  Hd].
  intros [= <- <-]. exists r3. split; [done|].
  split; [|split].
  - destruct r3 as [|x r3]; [by left|].
    destruct x as [|x]; [done|].
    repeat (destruct x as [x|x|]; try done).
    destruct r3; [by right|done].
  - by exists c, k, ks.
  - by split.
Qed.

Lemma match_kind_id_form (kind id nl : str) :
  kind_token kind -> id_token id -> nl = [] \/ nl = [10] ->
  match_kind_id (kind ++ 47 :: id ++ nl) = Some (kind, id).
Proof.
  intros (c & k & ks & -> & Hc & Hks) [Hid Hlen] Hnl.
  change ((c :: k :: ks) ++ 47 :: id ++ nl)
    with (c :: ((k :: ks) ++ 47 :: id ++ nl)).
  unfold match_kind_id. rewrite Hc.
  rewrite (span_app_stop is_alnum (k :: ks) (47 :: id ++ nl)); [|done|].
  2: { simpl. by intros ? [= <-]. }
  rewrite (span_app_stop is_id_char id nl); [|done|].
  2: { destruct Hnl as [-> | ->]; [done|]. simpl. by intros ? [= <-]. }
  destruct Hlen as [H1 H2].
  apply Nat.leb_le in H1, H2. rewrite H1, H2.
  by destruct Hnl as [-> | ->].
Qed.

(** X9. The pattern, read back from the hand-compiled matcher: [REF_RE]
    matches a candidate and yields the groups [kind] and [id] exactly when
    the candidate is an optional base [http(s)://host/segment/] (host and
    segment non-empty and without a slash), then [kind] (a letter and one or
    more letters or digits), a slash, [id] (1 to 64 characters among
    letters, digits, [-] and [.]), and nothing more but possibly one final
    newline.  In particular the groups are always read at the end of the
    candidate, the base is never part of them, and no candidate is split in
    two different ways. *)
Theorem REF_RE_pattern_form (c kind id : str) :
  REF_RE c = Some (kind, id) <-> pattern_form c kind id.
Proof.
  split.
  - unfold REF_RE. intros H.
    assert (Hplain : match_kind_id c = Some (kind, id) ->
                     pattern_form c kind id).
    { intros (nl & -> & Hnl & Hk & Hi)%match_kind_id_inv.
      exists [], nl. split; [done|]. split; [done|]. split; [done|].
      split; [done|]. by left. }
    destruct (match_base c) as [rest|] eqn:Hb; [|by apply Hplain].
    destruct (match_kind_id rest) as [g|] eqn:Hr; [|by apply Hplain].
    injection H as ->.
    apply match_kind_id_inv in Hr as (nl & -> & Hnl & Hk & Hi).
    apply match_base_inv in Hb
      as (scheme & host & seg & Hs & Hh & Hg & Hhost & Hseg & ->).
    exists (scheme ++ host ++ 47 :: seg ++ [47]), nl.
    split; [by rewrite <- !app_assoc; simpl; rewrite <- !app_assoc|].
    split; [done|]. split; [done|]. split; [done|].
    right. by exists scheme, host, seg.
  - intros (base & nl & -> & Hnl & Hk & Hi & Hbase).
    unfold REF_RE.
    destruct Hbase as [->|(scheme & host & seg & Hs & Hh & Hg & Hhost & Hseg
                           & ->)].
    + rewrite app_nil_l, match_base_no_colon; [by apply match_kind_id_form|].
      destruct Hk as (a & k & ks & -> & Ha & Hks). destruct Hi as [Hi _].
      apply Forall_app. split.
      * apply is_alpha_alnum in Ha.
        assert (Hall : Forall (fun x => is_alnum x = true) (a :: k :: ks))
          by by constructor.
        eapply Forall_impl; [exact Hall|]. intros x Hx%is_alnum_id_char.
        by destruct (is_id_char_plain x Hx) as (? & ? & ? & _).
      * constructor; [done|]. apply Forall_app. split.
        -- eapply Forall_impl; [exact Hi|]. intros x Hx.
           by destruct (is_id_char_plain x Hx) as (? & ? & ? & _).
        -- destruct Hnl as [-> | ->]; by repeat constructor.
    + replace ((scheme ++ host ++ 47 :: seg ++ [47]) ++ kind ++ 47 :: id ++ nl)
        with (scheme ++ host ++ 47 :: seg ++ 47 :: (kind ++ 47 :: id ++ nl))
        by (by rewrite <- !app_assoc; simpl; rewrite <- !app_assoc).
      rewrite match_base_form by done.
      by rewrite match_kind_id_form.
Qed.
(** ** The sanitizer, applied again *)

Lemma re_sub_ws_no_space (s : str) :
  Forall (fun c => is_space c = false) (re_sub_ws s).
Proof.
  induction s as [s IH] using (induction_ltof1 _ (@length N)).
  unfold ltof in IH. destruct s as [|c r]; [constructor|].
  rewrite re_sub_ws_cons. destruct (is_space c) eqn:Hc.
  - constructor; [done|]. apply IH.
    pose proof (lstrip_length is_space r). simpl. lia.
  - constructor; [done|]. apply IH. simpl. lia.
Qed.

Lemma re_sub_ws_head (s : str) (c : N) :
  head (re_sub_ws s) = Some c -> c = 45 \/ head s = Some c.
Proof.
  destruct s as [|d r]; [done|]. rewrite re_sub_ws_cons.
  destruct (is_space d); intros [= <-]; [by left|by right].
Qed.

Lemma last_lstrip (p : N -> bool) (s : str) (c : N) :
  last (lstrip p s) = Some c -> last s = Some c.
Proof.
  destruct (lstrip_decomp p s) as (pre & Hs & _). intros H.
  rewrite Hs. destruct (lstrip p s) as [|x t] eqn:E; [done|].
  apply last_Some in H as [t' Ht]. rewrite Ht, app_assoc. apply last_snoc.
Qed.

Lemma re_sub_ws_last (s : str) (c : N) :
  last (re_sub_ws s) = Some c -> c = 45 \/ last s = Some c.
Proof.
  revert c. induction s as [s IH] using (induction_ltof1 _ (@length N)).
  unfold ltof in IH. intros c. destruct s as [|d r]; [done|].
  rewrite re_sub_ws_cons. destruct (is_space d).
  - destruct (re_sub_ws (lstrip is_space r)) as [|x t] eqn:E.
    + intros [= <-]. by left.
    + rewrite last_cons_cons, <- E. intros H.
      apply IH in H as [H|H]; [by left| |].
      * right. apply last_lstrip in H.
        destruct r; [done|]. by rewrite last_cons_cons.
      * pose proof (lstrip_length is_space r). simpl. lia.
  - destruct (re_sub_ws r) as [|x t] eqn:E.
    + intros [= <-]. right. destruct r as [|y r]; [done|].
      rewrite re_sub_ws_cons in E. by destruct (is_space y).
    + rewrite last_cons_cons, <- E. intros H.
      apply IH in H as [H|H]; [by left| |simpl; lia].
      right. destruct r; [done|]. by rewrite last_cons_cons.
Qed.

(** X10. A sanitized form that starts neither with [urn:uuid:] nor with
    [#] is settled: it holds no whitespace character any more, and
    sanitizing it again gives it back.  (A form that starts with one of the
    two may still lose characters when sanitized again: it is returned
    before whitespace is replaced, and after the quotes were cut, so
    whitespace may be left at its end.) *)
Theorem sanitize_ref_string_settled (s : str) :
  startswith (sanitize_ref_string s) URN_PREFIX
  || startswith (sanitize_ref_string s) HASH = false ->
  Forall (fun c => is_space c = false) (sanitize_ref_string s)
  /\ sanitize_ref_string (sanitize_ref_string s) = sanitize_ref_string s.
Proof.
  intros Hst. set (s2 := strip is_quote (strip is_space s)).
  assert (Hs : sanitize_ref_string s = re_sub_ws s2).
  { unfold sanitize_ref_string in Hst |- *. fold s2 in Hst |- *.
    destruct (startswith s2 URN_PREFIX || startswith s2 HASH) eqn:E;
      [congruence|done]. }
  rewrite Hs in Hst |- *.
  pose proof (re_sub_ws_no_space s2) as Hns.
  split; [done|].
  assert (Hq : strip is_quote (re_sub_ws s2) = re_sub_ws s2).
  { destruct (trimmed_strip is_quote (strip is_space s))
      as (? & ? & _ & _ & _ & Hh & Hl). fold s2 in Hh, Hl.
    symmetry. apply trimmed_unique. exists [], [].
    rewrite app_nil_r. repeat split; [done..| |].
    - intros c [->|Hc]%re_sub_ws_head; [done|by apply Hh].
    - intros c [->|Hc]%re_sub_ws_last; [done|by apply Hl]. }
  unfold sanitize_ref_string.
  rewrite (strip_plain is_space (re_sub_ws s2)) by done. rewrite Hq, Hst.
  by apply re_sub_ws_plain.
Qed.
(** ** Entries and draws *)

Lemma collect_entries_stashed (es : list json) :
  forall es1 m m1 st st1,
    collect_entries es m st = Some (es1, m1, st1) ->
    Forall2 (fun e e1 =>
               exists ed n,
                 e = JObj ed
                 /\ e1 = JObj (dict_setdefault K_generated_uuid
                                 (JStr (gen_uuid n).1) ed))
      es es1.
Proof.
  induction es as [|e r IH]; intros es1 m m1 st st1 H; simpl in H.
  - injection H as <- <- <-. constructor.
  - destruct (collect_entry e m st) as [[[e1 m2] st2]|] eqn:He; [|done].
    simpl in H.
    destruct (collect_entries r m2 st2) as [[[r1 m3] st3]|] eqn:Hr; [|done].
    simpl in H. injection H as <- <- <-.
    apply collect_entry_inv in He as (ed & -> & _ & _ & -> & _).
    constructor; [by exists ed, st|by eapply IH].
Qed.

Lemma entry_uuid_stashed (ed : dict) (x : json) (st : nat) :
  truthy x = true ->
  (entry_uuid (dict_setdefault K_generated_uuid x ed) st).2
  = if redrawn (JObj ed) then S st else st.
Proof.
  intros Hx. unfold entry_uuid, dict_setdefault, redrawn.
  destruct (dict_get K_generated_uuid ed) as [y|] eqn:E.
  - rewrite E. by destruct (truthy y).
  - by rewrite dict_get_set_eq, Hx.
Qed.

Lemma process_entries_draws (bf bt : gmap str str) (es es1 : list json) :
  Forall2 (fun e e1 =>
             exists ed n,
               e = JObj ed
               /\ e1 = JObj (dict_setdefault K_generated_uuid
                               (JStr (gen_uuid n).1) ed))
    es es1 ->
  forall es' u u' st st',
    process_entries es1 bf bt u st = Some (es', u', st') ->
    st' = (st + length (List.filter redrawn es))%nat
    /\ length es' = length es.
Proof.
  induction 1 as [|e e1 r r1 (ed & n & -> & He1) _ IH];
    intros es' u u' st st' H; cbn [process_entries] in H.
  - injection H as <- <- <-. simpl. split; [lia|done].
  - destruct (process_entry e1 bf bt u st) as [[[e2 u1] st1]|] eqn:He;
      [|done].
    cbn [mbind option_bind] in H.
    destruct (process_entries r1 bf bt u1 st1) as [[[r2 u2] st2]|] eqn:Hr;
      [|done].
    cbn [mbind option_bind] in H. injection H as <- <- <-.
    apply process_entry_inv in He
      as (ed1 & ed3 & rd & -> & _ & _ & -> & _).
    injection He1 as ->.
    rewrite entry_uuid_stashed in Hr by apply uuid_str_truthy.
    apply IH in Hr as [-> Hlen]. cbn [List.filter length]. rewrite Hlen.
    destruct (redrawn (JObj ed)); simpl; split; lia.
Qed.

(** X11. The run neither adds nor drops an entry, and it draws one
    identifier for the bundle, one for each entry in the assignment pass,
    and one more in the second loop for each entry that came with a falsy
    [_generated_uuid] of its own, and no other.  A bundle without [entry]
    is returned without [entry]. *)
Theorem entries_and_draws (bundle : dict) (st st' : nat) (out : json)
    (w : option str) (es : list json) :
  transform_bundle bundle st = Some (out, w, st') ->
  entries_of bundle = Some es ->
  st' = (S st + length es + length (List.filter redrawn es))%nat
  /\ (dict_get K_entry bundle = Some (JArr es) ->
      exists es',
        get_path out [Key K_entry] = Some (JArr es')
        /\ length es' = length es)
  /\ (dict_get K_entry bundle = None -> get_path out [Key K_entry] = None).
Proof.
  intros Ht He. apply transform_bundle_state in Ht as (unk & Ht & _).
  apply transform_state_inv in Ht
    as (es0 & es1 & m & st1 & es' & u2 & b2 & He0 & Hc & Hp & Hrw
        & _ & Hentry & Hnolist).
  assert (es0 = es) as -> by congruence.
  pose proof (rewrite_references_fst (by_fullurl m) (by_typeid_str m)
                (JObj b2) u2) as Hout.
  rewrite Hrw in Hout. cbn [fst] in Hout. subst out.
  destruct (process_entries_draws _ _ _ _ (collect_entries_stashed _ _ _ _ _ _
              Hc) _ _ _ _ _ Hp) as [Hst Hlen].
  apply collect_entries_inv in Hc as [-> _].
  split; [lia|]. split.
  - intros Hl. destruct (Hentry es Hl) as [_ Hb2].
    rewrite get_path_rewrite_json. cbn [get_path]. rewrite Hb2.
    cbn [fmap option_fmap option_map]. unfold rewrite_at.
    rewrite rewrite_json_arr. eexists. split; [done|].
    by rewrite length_fmap.
  - intros Hn. rewrite get_path_rewrite_json. cbn [get_path].
    rewrite Hnolist; [by rewrite Hn|]. intros l. by rewrite Hn.
Qed.
(** ** What the run leaves alone *)

(** Any value at a kept position of the given bundle is, before the final
    pass, found at the same position: as it was, or, inside a record, as the
    record's own pass left it. *)
Lemma prefinal_value (bundle b2 : dict) (es0 es1 es' : list json)
    (m : lookups) (u2 : gset str) (st st1 st' : nat) (p : list step)
    (x : json) :
  let bf := by_fullurl m in
  let bt := by_typeid_str m in
  entries_of bundle = Some es0 ->
  collect_entries es0 (Lookups ∅ [] ∅) (S st) = Some (es1, m, st1) ->
  process_entries es1 bf bt ∅ st1 = Some (es', u2, st') ->
  (forall k, k <> K_entry ->
   dict_get k b2 = dict_get k (rekey_bundle bundle (gen_uuid st).1)) ->
  (forall l, dict_get K_entry bundle = Some (JArr l) ->
   es0 = l /\ dict_get K_entry b2 = Some (JArr es')) ->
  kept p = true ->
  get_path (JObj bundle) p = Some x ->
  get_path (JObj b2) p = Some x
  \/ get_path (JObj b2) p = Some (rewrite_at bf bt p x).
Proof.
  intros bf bt He0 Hc Hp Hother Hentry Hkept Hv.
  destruct p as [|[k|?] r]; try done. cbn [kept] in Hkept.
  destruct (decide (k = K_entry)) as [->|Hne].
  - destruct r as [|[?|i] [|[k2|?] r2]]; try done.
    cbn [get_path] in Hv |- *.
    destruct (dict_get K_entry bundle) as [[| | | | |l|o]|] eqn:El; try done.
    destruct (Hentry l eq_refl) as [-> ->].
    destruct (l !! i) as [e|] eqn:Hi; [|done].
    destruct (entry_pipeline _ _ _ _ _ _ _ _ _ _ _ _ i e Hc Hp Hi)
      as (ed & ed3 & nu & -> & -> & _ & _ & _ & Hk & Hr).
    cbn [get_path] in Hv |- *.
    destruct (decide (k2 = K_fullUrl)); [done|].
    destruct (decide (k2 = K_generated_uuid)); [done|].
    destruct (decide (k2 = K_resource)) as [->|Hne2].
    + destruct (dict_get K_resource ed) as [y|] eqn:Hy; [|done].
      destruct r2 as [|[k3|?] r3]; try done.
      destruct y as [| | | | | |rd]; try done.
      rewrite (Hr rd eq_refl). right.
      rewrite get_path_rewrite_json.
      rewrite (rekeyed_get_path rd _ _ x (rekeyed_record rd nu _));
        [|done..].
      cbn [fmap option_fmap option_map]. reflexivity.
    + left. by rewrite Hk.
  - left. cbn [get_path]. rewrite Hother by done.
    by apply (rekeyed_get_path bundle _ (Key k :: r) _
                (rekeyed_bundle bundle (gen_uuid st).1)).
Qed.

Lemma mask_refs_rewrite_at (bf bt : gmap str str) (p : list step) (x : json) :
  tagged p = false \/ (forall s, x <> JStr s) ->
  mask_refs (rewrite_at bf bt p x) = mask_refs x.
Proof.
  intros H. unfold rewrite_at.
  destruct x; try apply mask_refs_rewrite_json.
  destruct H as [->|H]; [done|]. by destruct (H s).
Qed.

Lemma rewrite_at_not_str (bf bt : gmap str str) (p : list step) (x : json) :
  (forall s, x <> JStr s) -> forall s, rewrite_at bf bt p x <> JStr s.
Proof.
  intros H s. pose proof (rewrite_json_shape bf bt x) as Hx.
  unfold rewrite_at. destruct x; try (rewrite Hx; done). by destruct (H s0).
Qed.

(** X12. The frame of the whole run.  At every position the transform keeps
    (outside the bundle's and the records' [id], an [identifier] that is
    not a sequence, and an entry's [fullUrl] and helper key), whatever the
    given bundle holds that is not a string under the key [reference] is
    found in the returned bundle at the same position, the same up to the
    content of the strings stored under [reference] inside it; a scalar is
    found unchanged. *)
Theorem transform_frame (bundle : dict) (st st' : nat) (out : json)
    (w : option str) (p : list step) (x : json) :
  transform_bundle bundle st = Some (out, w, st') ->
  kept p = true ->
  get_path (JObj bundle) p = Some x ->
  tagged p = false \/ (forall s, x <> JStr s) ->
  exists y,
    get_path out p = Some y
    /\ mask_refs y = mask_refs x
    /\ ((forall l, x <> JArr l) -> (forall d, x <> JObj d) -> y = x).
Proof.
  intros Ht Hkept Hx Hleaf.
  apply transform_bundle_state in Ht as (unk & Ht & _).
  apply transform_state_inv in Ht
    as (es0 & es1 & m & st1 & es' & u2 & b2 & He0 & Hc & Hp & Hrw
        & Hother & Hentry & _).
  pose proof (prefinal_value bundle b2 es0 es1 es' m u2 st st1 st' p x
                He0 Hc Hp Hother Hentry Hkept Hx) as Hpre.
  pose proof (rewrite_references_fst (by_fullurl m) (by_typeid_str m)
                (JObj b2) u2) as Hout.
  rewrite Hrw in Hout. cbn [fst] in Hout. subst out.
  set (bf := by_fullurl m) in *. set (bt := by_typeid_str m) in *.
  assert (Hleaf' : tagged p = false
                   \/ (forall s, rewrite_at bf bt p x <> JStr s)).
  { destruct Hleaf as [H|H]; [by left|right]. by apply rewrite_at_not_str. }
  rewrite get_path_rewrite_json.
  destruct Hpre as [-> | ->]; cbn [fmap option_fmap option_map];
    eexists; (split; [reflexivity|]); split.
  - by apply mask_refs_rewrite_at.
  - intros Hl Hd. by apply rewrite_at_leaf.
  - rewrite mask_refs_rewrite_at by done. by apply mask_refs_rewrite_at.
  - intros Hl Hd. rewrite (rewrite_at_leaf bf bt p x) by done.
    by apply rewrite_at_leaf.
Qed.
(** ** The unresolved set *)

Lemma rewrite_item_unknown (bf bt : gmap str str) (k : str) (x : json)
    (v : str) :
  (forall u, v ∈ (rewrite_references x bf bt u).2
             <-> v ∈ u \/ (ref_in x v /\ map_reference v bf bt = None)) ->
  forall u,
    v ∈ (rewrite_item (fun y w => rewrite_references y bf bt w)
           bf bt k x u).2
    <-> v ∈ u
        \/ (((k = K_reference /\ x = JStr v) \/ ref_in x v)
            /\ map_reference v bf bt = None).
Proof.
  intros Hx u. unfold rewrite_item.
  destruct x as [| | | |s| |];
    try (rewrite Hx; split; (intros [H|[H Hm]]; [by left|right]);
         [by split; [right|]|by destruct H as [[_ [=]]|H]]).
  destruct (decide (k = K_reference)) as [->|Hk].
  - destruct (map_reference s bf bt) as [r|] eqn:Hm.
    + simpl. split; [by left|]. intros [H|[[[_ [= ->]]|H] Hn]]; [done| |].
      * congruence.
      * inversion H.
    + destruct (map_reference_None_raw _ _ _ Hm) as [-> ->]. simpl.
      rewrite elem_of_union, elem_of_singleton. split.
      * intros [->|H]; [right|by left]. split; [by left|done].
      * intros [H|[[[_ [= ->]]|H] Hn]]; [by right|by left|inversion H].
  - simpl. split; [by left|].
    intros [H|[[[? _]|H] _]]; [done|done|inversion H].
Qed.

(** X13. What a pass records, exactly: after [rewrite_references] the
    unresolved set holds what it held before, and the strings stored under
    [reference] somewhere in the object that the matcher does not resolve;
    nothing is removed, and no string that is resolved, that is stored under
    another key, or that does not occur in the object is ever added.  (The
    test on the two prefixes before [unknown.add] never fails, so it keeps
    nothing out.) *)
Theorem unknown_exact (bf bt : gmap str str) (obj : json) (v : str) :
  forall unknown,
    v ∈ (rewrite_references obj bf bt unknown).2
    <-> v ∈ unknown \/ (ref_in obj v /\ map_reference v bf bt = None).
Proof.
  induction obj as [| | | | |l IH|d IH] using json_ind; intros u;
    try (simpl; split; [by left|by intros [H|[H _]]; [|inversion H]]).
  - rewrite rewrite_references_arr.
    assert (Hl : forall u,
              v ∈ (rewrite_elems bf bt l u).2
              <-> v ∈ u
                  \/ ((exists x, x ∈ l /\ ref_in x v)
                      /\ map_reference v bf bt = None)).
    { clear u. induction IH as [|x r Hx _ IHr]; intros u.
      - simpl. split; [by left|].
        intros [H|[(x & Hin & _) _]]; [done|by apply elem_of_nil in Hin].
      - simpl. specialize (Hx u).
        destruct (rewrite_references x bf bt u) as [x1 u1].
        specialize (IHr u1). destruct (rewrite_elems bf bt r u1) as [r1 w1].
        simpl in *. rewrite IHr, Hx. split.
        + intros [[H|[H Hm]]|[(y & Hin & Hy) Hm]]; [by left|right..];
            (split; [|done]).
          * exists x. split; [apply list_elem_of_here|done].
          * exists y. split; [by apply list_elem_of_further|done].
        + intros [H|[(y & Hin & Hy) Hm]]; [by left; left|].
          apply elem_of_cons in Hin as [->|Hin].
          * left. right. by split.
          * right. split; [|done]. by exists y. }
    specialize (Hl u). destruct (rewrite_elems bf bt l u) as [l1 w1].
    simpl in *. rewrite Hl. split.
    + intros [H|[(x & Hin & Hx) Hm]]; [by left|right].
      split; [by eapply ref_in_arr|done].
    + intros [H|[H Hm]]; [by left|right]. split; [|done].
      inversion H; subst. by eexists.
  - rewrite rewrite_references_obj.
    assert (Hd : forall u,
              v ∈ (rewrite_items bf bt d u).2
              <-> v ∈ u
                  \/ ((exists k x, (k, x) ∈ d
                         /\ ((k = K_reference /\ x = JStr v) \/ ref_in x v))
                      /\ map_reference v bf bt = None)).
    { clear u. induction IH as [|[k x] r Hx _ IHr]; intros u.
      - simpl. split; [by left|].
        intros [H|[(k & x & Hin & _) _]]; [done|by apply elem_of_nil in Hin].
      - simpl in Hx |- *.
        pose proof (rewrite_item_unknown bf bt k x v Hx u) as Hi.
        destruct (rewrite_item _ bf bt k x u) as [x1 u1].
        specialize (IHr u1). destruct (rewrite_items bf bt r u1) as [r1 w1].
        simpl in *. rewrite IHr, Hi. split.
        + intros [[H|[H Hm]]|[(k' & y & Hin & Hy) Hm]]; [by left|right..];
            (split; [|done]).
          * exists k, x. split; [apply list_elem_of_here|done].
          * exists k', y. split; [by apply list_elem_of_further|done].
        + intros [H|[(k' & y & Hin & Hy) Hm]]; [by left; left|].
          apply elem_of_cons in Hin as [[= -> ->]|Hin].
          * left. right. by split.
          * right. split; [|done]. by exists k', y. }
    specialize (Hd u). destruct (rewrite_items bf bt d u) as [d1 w1].
    simpl in *. rewrite Hd. split.
    + intros [H|[(k & x & Hin & [[-> ->]|Hx]) Hm]]; [by left|right..];
        (split; [|done]); [by apply ref_in_here|by eapply ref_in_obj].
    + intros [H|[H Hm]]; [by left|right]. split; [|done].
      inversion H; subst; eexists _, _; (split; [done|]);
        [by left|by right].
Qed.

Lemma dict_get_elem_of (k : str) (d : dict) (x : json) :
  dict_get k d = Some x -> (k, x) ∈ d.
Proof.
  induction d as [|[k' y] r IH]; [done|]. simpl.
  destruct (decide (k' = k)) as [->|Hne].
  - intros [= ->]. apply list_elem_of_here.
  - intros H. apply list_elem_of_further. by apply IH.
Qed.

(** A string found by a path is a string that occurs. *)
Lemma ref_at_ref_in (p : list step) :
  forall obj v, ref_at obj p v -> ref_in obj v.
Proof.
  unfold ref_at. induction p as [|[k|i] r IH]; intros obj v H; simpl in H.
  - destruct obj as [| | | | | |d]; try done.
    destruct (dict_get K_reference d) as [y|] eqn:E; [|done].
    injection H as ->. apply ref_in_here. by apply dict_get_elem_of.
  - destruct obj as [| | | | | |d]; try done.
    destruct (dict_get k d) as [y|] eqn:E; [|done].
    eapply ref_in_obj; [by apply dict_get_elem_of|by apply IH].
  - destruct obj as [| | | | |l|]; try done.
    destruct (l !! i) as [y|] eqn:E; [|done].
    eapply ref_in_arr; [by eapply list_elem_of_lookup_2|by apply IH].
Qed.
End script.

(** * The properties on sample documents *)





Lemma generated_uuid_removed_witness :
  exists out w st' ed,
    transform_bundle sample_draws sample_py_str stash_bundle 0
    = Some (out, w, st')
    /\ get_path out [Key K_entry; Idx 0] = Some (JObj ed)
    /\ dict_get K_generated_uuid ed = None.
Proof.
  destruct (transform_bundle sample_draws sample_py_str stash_bundle 0)
    as [[[out w] st']|] eqn:E;
    [|vm_compute in E; discriminate].
  destruct (get_path out [Key K_entry; Idx 0]) as [e|] eqn:He.
  2: { vm_compute in E. injection E as <- _ _. vm_compute in He.
       discriminate. }
  destruct (generated_uuid_removed sample_draws sample_py_str stash_bundle
    0 st' out w 0 e E He) as (ed & -> & Hno).
  by exists out, w, st', ed.
Defined.
Lemma add_identifier_preserves_witness :
  dict_get K_identifier
    (add_identifier
       [(K_identifier, JObj [(K_system, jstr "urn:mrn"); (K_value, jstr "7")])]
       (lit "urn:uuid:0"))
  = Some (JArr [JObj [(K_system, jstr "urn:mrn"); (K_value, jstr "7")];
                urn_ident (lit "urn:uuid:0")]).
Proof.
  apply (proj1 (proj2 (add_identifier_preserves
    [(K_identifier, JObj [(K_system, jstr "urn:mrn"); (K_value, jstr "7")])]
    (lit "urn:uuid:0")))).
  reflexivity.
Defined.
(** A coding-system URL that reads like a reference the index knows is left
    alone, since its key is not [reference]. *)
Lemma rewrite_references_frame_witness :
  get_path
    (rewrite_references
       (JObj [(lit "system", jstr "Patient/123");
              (K_reference, jstr "Patient/123")])
       ∅ {[ lit "Patient/123" := lit "urn:uuid:0" ]} ∅).1
    [Key (lit "system")]
  = Some (jstr "Patient/123").
Proof.
  apply (proj2 (rewrite_references_frame ∅
    {[ lit "Patient/123" := lit "urn:uuid:0" ]}
    (JObj [(lit "system", jstr "Patient/123");
           (K_reference, jstr "Patient/123")]) ∅)).
  - reflexivity.
  - done.
  - done.
  - left. reflexivity.
Defined.



(** C2, at a document whose first entry already has the helper key: the
    entry's [fullUrl] and its record's [id] are built from the value found
    there, while the identifier the assignment pass drew for the entry, to
    which the reference of the second entry is resolved, is another one. *)
Theorem fullUrl_from_stale_helper :
  exists out w st',
    transform_bundle sample_draws sample_py_str stash_bundle 0
    = Some (out, w, st')
    /\ get_path out [Key K_entry; Idx 0; Key K_fullUrl]
       = Some (jstr "urn:uuid:x")
    /\ get_path out [Key K_entry; Idx 0; Key K_resource; Key K_id]
       = Some (jstr "x")
    /\ ref_at out [Key K_entry; Idx 1; Key K_resource; Key (lit "subject")]
         (urn_of_draw sample_draws sample_py_str 1)
    /\ urn_of_draw sample_draws sample_py_str 1 <> lit "urn:uuid:x".
Proof.
  eexists _, _, _. split; [vm_compute; reflexivity|].
  repeat split; vm_compute; (reflexivity || discriminate).
Qed.

(** C4, at a local pointer followed by a space: the value the transform
    leaves in the field is the trimmed string, not the given one. *)
Theorem local_pointer_trimmed :
  exists out w st',
    transform_bundle sample_draws sample_py_str local_bundle 0
    = Some (out, w, st')
    /\ ref_at (JObj local_bundle)
         [Key K_entry; Idx 0; Key K_resource; Key (lit "subject")]
         (lit "#p1 ")
    /\ ref_at out
         [Key K_entry; Idx 0; Key K_resource; Key (lit "subject")]
         (lit "#p1")
    /\ lit "#p1" <> lit "#p1 ".
Proof.
  eexists _, _, _. split; [vm_compute; reflexivity|].
  repeat split; vm_compute; (reflexivity || discriminate).
Qed.

(** ** Further properties on the sample documents *)

Lemma bundle_rekeyed_witness :
  exists out w st',
    transform_bundle sample_draws sample_py_str sample_bundle 0
    = Some (out, w, st')
    /\ get_path out [Key K_id] = Some (JStr (gen_uuid sample_draws 0).1)
    /\ get_path out [Key K_identifier]
       = Some (urn_ident (urn_of_draw sample_draws sample_py_str 0)).
Proof.
  destruct (transform_bundle sample_draws sample_py_str sample_bundle 0)
    as [[[out w] st']|] eqn:E;
    [|vm_compute in E; discriminate].
  exists out, w, st'. split; [reflexivity|].
  destruct (bundle_rekeyed sample_draws sample_py_str sample_bundle 0 st'
              out w E) as (Hid & Hnone & _).
  split; [exact Hid|]. apply Hnone. reflexivity.
Defined.

Lemma entry_rekeyed_witness :
  exists out w st' ed u,
    transform_bundle sample_draws sample_py_str sample_bundle 0
    = Some (out, w, st')
    /\ get_path out [Key K_entry; Idx 1] = Some (JObj ed)
    /\ dict_get K_fullUrl ed = Some (JStr u)
    /\ startswith u URN_PREFIX = true.
Proof.
  destruct (transform_bundle sample_draws sample_py_str sample_bundle 0)
    as [[[out w] st']|] eqn:E;
    [|vm_compute in E; discriminate].
  destruct (get_path out [Key K_entry; Idx 1]) as [e|] eqn:He.
  2: { vm_compute in E. injection E as <- _ _. vm_compute in He.
       discriminate. }
  destruct (entry_rekeyed sample_draws sample_py_str sample_bundle
    0 st' out w 1 e E He) as (ed & u & -> & Hfu & Hst & _).
  exists out, w, st', ed, u. split; [reflexivity|]. split; [exact He|].
  split; assumption.
Defined.

Lemma reference_by_locator_witness :
  exists out w st',
    transform_bundle sample_draws sample_py_str sample_bundle 0
    = Some (out, w, st')
    /\ ref_at out
         [Key K_entry; Idx 1; Key K_resource; Key (lit "link"); Idx 0;
          Key (lit "other")]
         (urn_of_draw sample_draws sample_py_str 1).
Proof.
  destruct (transform_bundle sample_draws sample_py_str sample_bundle 0)
    as [[[out w] st']|] eqn:E;
    [|vm_compute in E; discriminate].
  exists out, w, st'. split; [reflexivity|].
  refine (reference_by_locator sample_draws sample_py_str sample_bundle
    0 st' out w _
    [Key K_entry; Idx 1; Key K_resource; Key (lit "link"); Idx 0;
     Key (lit "other")]
    (lit "https://example.org/fhir/Observation/abc") 0 _
    E eq_refl _ _ _ eq_refl _ _).
  - vm_compute. reflexivity.
  - vm_compute. reflexivity.
  - vm_compute. reflexivity.
  - vm_compute. reflexivity.
  - intros [|[|[|j']]] e' Hlt; [lia| |by intros [=]..].
    intros [= <-]. vm_compute. discriminate.
Defined.

Lemma passthrough_reference_witness :
  exists m suf,
    map_reference (lit "#p1 ") ∅ ∅ = Some m /\ lit "#p1 " = m ++ suf.
Proof.
  destruct (passthrough_reference ∅ ∅ (lit "#p1 ") eq_refl)
    as (m & suf & Hm & Hv & _).
  exists m, suf. split; assumption.
Defined.

Lemma map_reference_sound_witness :
  exists m b1 st1 j,
    collect_uuid_map sample_draws sample_py_str sample_bundle 1
    = Some (m, b1, st1)
    /\ (j < 2)%nat
    /\ map_reference (lit "Patient/123") (by_fullurl m) (by_typeid_str m)
       = Some (urn_of_draw sample_draws sample_py_str (1 + j)).
Proof.
  assert (Hc : match collect_uuid_map sample_draws sample_py_str
                       sample_bundle 1 with
               | Some (m, _, _) =>
                   map_reference (lit "Patient/123") (by_fullurl m)
                     (by_typeid_str m)
               | None => None
               end = Some (urn_of_draw sample_draws sample_py_str 2))
    by (vm_compute; reflexivity).
  destruct (collect_uuid_map sample_draws sample_py_str sample_bundle 1)
    as [[[m b1] st1]|] eqn:E; [|discriminate Hc].
  destruct (map_reference_sound sample_draws sample_py_str sample_bundle b1
              m 1 st1 _ (lit "Patient/123") _ E eq_refl Hc)
    as [[Hr _]|(j & e & Hj & Hr & _)].
  - vm_compute in Hr. discriminate.
  - exists m, b1, st1, j. split; [reflexivity|]. split.
    + apply lookup_lt_Some in Hj. exact Hj.
    + rewrite Hc, Hr. reflexivity.
Defined.

Lemma index_last_writer_witness :
  exists m b1 st1,
    collect_uuid_map sample_draws sample_py_str sample_bundle 1
    = Some (m, b1, st1)
    /\ st1 = 3%nat.
Proof.
  assert (Hc : match collect_uuid_map sample_draws sample_py_str
                       sample_bundle 1 with
               | Some _ => true
               | None => false
               end = true)
    by (vm_compute; reflexivity).
  destruct (collect_uuid_map sample_draws sample_py_str sample_bundle 1)
    as [[[m b1] st1]|] eqn:E; [|discriminate Hc].
  exists m, b1, st1. split; [reflexivity|].
  refine (eq_trans (proj1 (index_last_writer sample_draws sample_py_str
                             sample_bundle b1 m 1 st1 _ [] [] E eq_refl)) _).
  vm_compute. reflexivity.
Defined.

Lemma reference_outcomes_witness :
  exists out w st',
    transform_bundle sample_draws sample_py_str sample_bundle 0
    = Some (out, w, st')
    /\ (ref_at out
          [Key K_entry; Idx 0; Key K_resource; Key (lit "performer"); Idx 0]
          (lit "Practitioner/zz")
        /\ is_Some w).
Proof.
  destruct (transform_bundle sample_draws sample_py_str sample_bundle 0)
    as [[[out w] st']|] eqn:E;
    [|vm_compute in E; discriminate].
  assert (Hg : ref_at out
                 [Key K_entry; Idx 0; Key K_resource; Key (lit "performer");
                  Idx 0]
                 (lit "Practitioner/zz")).
  { clear -E. vm_compute in E. injection E as <- _ _. vm_compute.
    reflexivity. }
  exists out, w, st'. split; [reflexivity|].
  destruct (reference_outcomes sample_draws sample_py_str sample_bundle
    0 st' out w _
    [Key K_entry; Idx 0; Key K_resource; Key (lit "performer"); Idx 0]
    (lit "Practitioner/zz") E eq_refl)
    as [H|[(pre & r & suf & Hout & _ & _ & _ & Hst)|(j & e & _ & Hout & _)]].
  - vm_compute. reflexivity.
  - vm_compute. reflexivity.
  - exact H.
  - exfalso. unfold ref_at in Hg, Hout. rewrite Hg in Hout.
    injection Hout as <-. vm_compute in Hst. discriminate.
  - exfalso. unfold ref_at in Hg, Hout. rewrite Hg in Hout.
    injection Hout as Hout. discriminate Hout.
Defined.

Lemma sanitize_ref_string_settled_witness :
  sanitize_ref_string (sanitize_ref_string (lit " 'Patient/ 1 2' "))
  = sanitize_ref_string (lit " 'Patient/ 1 2' ").
Proof.
  exact (proj2 (sanitize_ref_string_settled (lit " 'Patient/ 1 2' ") eq_refl)).
Defined.

Lemma entries_and_draws_witness :
  exists out w st',
    transform_bundle sample_draws sample_py_str sample_bundle 0
    = Some (out, w, st')
    /\ st' = 3%nat.
Proof.
  destruct (transform_bundle sample_draws sample_py_str sample_bundle 0)
    as [[[out w] st']|] eqn:E;
    [|vm_compute in E; discriminate].
  exists out, w, st'. split; [reflexivity|].
  refine (eq_trans (proj1 (entries_and_draws sample_draws sample_py_str
                             sample_bundle 0 st' out w _ E eq_refl)) _).
  vm_compute. reflexivity.
Defined.

Lemma transform_frame_witness :
  exists out w st',
    transform_bundle sample_draws sample_py_str sample_bundle 0
    = Some (out, w, st')
    /\ get_path out
         [Key K_entry; Idx 0; Key K_resource; Key (lit "code");
          Key (lit "coding"); Idx 0; Key (lit "code")]
       = Some (jstr "Patient/123").
Proof.
  destruct (transform_bundle sample_draws sample_py_str sample_bundle 0)
    as [[[out w] st']|] eqn:E;
    [|vm_compute in E; discriminate].
  exists out, w, st'. split; [reflexivity|].
  destruct (transform_frame sample_draws sample_py_str sample_bundle
    0 st' out w
    [Key K_entry; Idx 0; Key K_resource; Key (lit "code");
     Key (lit "coding"); Idx 0; Key (lit "code")]
    (jstr "Patient/123") E) as (y & Hy & _ & Hs).
  - vm_compute. reflexivity.
  - vm_compute. reflexivity.
  - left. vm_compute. reflexivity.
  - rewrite Hy. f_equal. apply Hs; intros ?; discriminate.
Defined.

